(** * orchestrator_eval_ollama.py: a shallow embedding and its properties

    The script drives a local model through six fixed prompts, cuts a JSON
    object out of each answer and validates it as a [ToolCall].

    Conventions of the embedding:
    - a Python [str] is a [string]; text outside ASCII is carried as its
      UTF-8 bytes, which leaves the positions of the ASCII characters the
      script searches for (the two braces) in the same order;
    - a raised exception is a value of [exn]; a function that can raise
      returns a [result];
    - printing, the clock and the external process are threaded through an
      explicit [state], the external collaborators (the argument parser,
      the model process, the clock, the encoding of standard output) being
      the fields of a [world];
    - [json.loads], [str.format], [subprocess.run] and pydantic's model
      construction belong to libraries, not to the script: they are modelled
      in the modules [Py], [Json] and [Pydantic] to the extent the script
      exercises them. *)

From Stdlib Require Import String Ascii ZArith NArith List Bool Lia.
Import ListNotations.

Local Open Scope string_scope.
Local Open Scope Z_scope.

(* ===================================================================== *)
(** * Python runtime: exceptions, results, strings *)
(* ===================================================================== *)

Module Py.

(** The exception classes the script and its libraries can raise. *)
Inductive exn : Type :=
| ValueError (msg : string)
| JSONDecodeError (msg : string)          (* a subclass of ValueError *)
| TypeError (msg : string)
| KeyError (key : string)
| IndexError (msg : string)
| RecursionError
| ValidationError (errors : list (string * string))   (* (field, error type) *)
| UnicodeDecodeError                      (* a subclass of ValueError *)
| UnicodeEncodeError                      (* a subclass of ValueError *)
| CalledProcessError (returncode : Z) (cmd : list string) (output stderr : string)
| FileNotFoundError (filename : string)   (* OSError family *)
| PermissionError (filename : string)     (* OSError family *)
| SystemExit (code : Z).                  (* BaseException, not Exception *)

(** [isinstance(e, Exception)]. *)
Definition is_Exception (e : exn) : bool :=
  match e with
  | SystemExit _ => false
  | _ => true
  end.

(** [isinstance(e, subprocess.CalledProcessError)]. *)
Definition is_CalledProcessError (e : exn) : bool :=
  match e with
  | CalledProcessError _ _ _ _ => true
  | _ => false
  end.

Inductive result (A : Type) : Type :=
| Ok (a : A)
| Raise (e : exn).
Arguments Ok {A} a.
Arguments Raise {A} e.

Definition rbind {A B : Type} (r : result A) (k : A -> result B) : result B :=
  match r with
  | Ok a => k a
  | Raise e => Raise e
  end.

(** [try: body / except <class>: handler] on a pure computation. *)
Definition try_except {A : Type} (body : result A) (catches : exn -> bool)
           (handler : exn -> result A) : result A :=
  match body with
  | Ok a => Ok a
  | Raise e => if catches e then handler e else Raise e
  end.

(** ** String primitives *)

Definition dquote : ascii := "034"%char.
Definition DQ : string := String dquote "".

(** Writing aid for literals that contain double quotes: every apostrophe
    of [s] stands for a double quote. *)
Fixpoint quoted (s : string) : string :=
  match s with
  | "" => ""
  | String c s' => String (if Ascii.eqb c "'" then dquote else c) (quoted s')
  end.

Fixpoint take (n : nat) (s : string) : string :=
  match n, s with
  | O, _ => ""
  | S _, "" => ""
  | S n', String c s' => String c (take n' s')
  end.

Fixpoint drop (n : nat) (s : string) : string :=
  match n, s with
  | O, _ => s
  | S _, "" => ""
  | S n', String _ s' => drop n' s'
  end.

(** Position of the first occurrence of the character [c]. *)
Fixpoint find_char (c : ascii) (s : string) : option nat :=
  match s with
  | "" => None
  | String a s' =>
      if Ascii.eqb a c then Some O else option_map S (find_char c s')
  end.

(** Position of the last occurrence of the character [c]. *)
Fixpoint rfind_char (c : ascii) (s : string) : option nat :=
  match s with
  | "" => None
  | String a s' =>
      match rfind_char c s' with
      | Some i => Some (S i)
      | None => if Ascii.eqb a c then Some O else None
      end
  end.

(** [s.index(c)] for a one-character needle: raises ValueError when absent. *)
Definition str_index (s : string) (c : ascii) : result Z :=
  match find_char c s with
  | Some i => Ok (Z.of_nat i)
  | None => Raise (ValueError "substring not found")
  end.

(** [s.rfind(c)] for a one-character needle: -1 when absent. *)
Definition str_rfind (s : string) (c : ascii) : Z :=
  match rfind_char c s with
  | Some i => Z.of_nat i
  | None => -1
  end.

(** How a slice bound is brought into [0, len]: a negative bound counts
    from the end. *)
Definition clamp_index (len i : Z) : Z :=
  if i <? 0 then Z.max (i + len) 0 else Z.min i len.

(** [s[lo:hi]]: never raises; empty when the bounds cross. *)
Definition str_slice (s : string) (lo hi : Z) : string :=
  let len := Z.of_nat (String.length s) in
  let a := clamp_index len lo in
  let b := clamp_index len hi in
  take (Z.to_nat (b - a)) (drop (Z.to_nat a) s).

(** Truth value of a string: [not j] holds for the empty string. *)
Definition str_truthy (s : string) : bool :=
  match s with
  | "" => false
  | _ => true
  end.

(** [c.isspace()] on the ASCII range. *)
Definition is_space (c : ascii) : bool :=
  let n := nat_of_ascii c in
  ((9 <=? n) && (n <=? 13) || (28 <=? n) && (n <=? 32))%nat.

Fixpoint lstrip (s : string) : string :=
  match s with
  | "" => ""
  | String c s' => if is_space c then lstrip s' else s
  end.

Fixpoint rstrip (s : string) : string :=
  match s with
  | "" => ""
  | String c s' =>
      match rstrip s' with
      | "" => if is_space c then "" else String c ""
      | t => String c t
      end
  end.

(** [s.strip()]; whitespace outside ASCII is not modelled. *)
Definition strip (s : string) : string := rstrip (lstrip s).

Fixpoint lookup_kw (k : string) (kwargs : list (string * string)) : option string :=
  match kwargs with
  | [] => None
  | (k', v) :: rest => if String.eqb k' k then Some v else lookup_kw k rest
  end.

Definition is_digit (c : ascii) : bool :=
  let n := nat_of_ascii c in ((48 <=? n) && (n <=? 57))%nat.

Fixpoint all_digits (s : string) : bool :=
  match s with
  | "" => true
  | String c s' => is_digit c && all_digits s'
  end.

Definition rmap {A B : Type} (f : A -> B) (r : result A) : result B :=
  rbind r (fun a => Ok (f a)).

(** [template.format] applied to keyword arguments with string values.
    [field] is [None] while literal text is read and [Some name] inside a
    replacement field.  Doubled braces are literal braces.  Replacement
    fields with a conversion, a format spec or an attribute or index lookup
    are outside the model and reported as a ValueError; an empty or numeric
    field name asks for a positional argument, and none is given. *)
Fixpoint format_go (kwargs : list (string * string)) (t : string)
         (field : option string) : result string :=
  match t with
  | "" =>
      match field with
      | None => Ok ""
      | Some _ => Raise (ValueError "expected '}' before end of string")
      end
  | String c t' =>
      match field with
      | None =>
          if Ascii.eqb c "{" then
            match t' with
            | String "{" t'' => rmap (String "{") (format_go kwargs t'' None)
            | _ => format_go kwargs t' (Some "")
            end
          else if Ascii.eqb c "}" then
            match t' with
            | String "}" t'' => rmap (String "}") (format_go kwargs t'' None)
            | _ => Raise (ValueError "Single '}' encountered in format string")
            end
          else rmap (String c) (format_go kwargs t' None)
      | Some name =>
          if Ascii.eqb c "}" then
            if all_digits name then
              Raise (IndexError "Replacement index out of range for positional args tuple")
            else
              match lookup_kw name kwargs with
              | Some v => rmap (String.append v) (format_go kwargs t' None)
              | None => Raise (KeyError name)
              end
          else if Ascii.eqb c "{" || Ascii.eqb c "!" || Ascii.eqb c ":"
                  || Ascii.eqb c "." || Ascii.eqb c "["
          then Raise (ValueError "replacement field outside the model")
          else format_go kwargs t' (Some (name ++ String c ""))
      end
  end.

Definition str_format (template : string) (kwargs : list (string * string))
  : result string :=
  format_go kwargs template None.

End Py.
Export Py.

(* ===================================================================== *)
(** * The json library: values and the decoder *)
(* ===================================================================== *)

Module Json.

(** A decoded JSON value.  A float is kept as the text the decoder matched
    (or the name of the constant), since the script never computes with it.
    An object is a Python [dict]: keys in insertion order, no key twice. *)
#[local] Unset Elimination Schemes.
Inductive json : Type :=
| JNull
| JBool (b : bool)
| JInt (z : Z)
| JFloat (lexeme : string)
| JString (s : string)
| JArray (items : list json)
| JObject (members : list (string * json)).
#[local] Set Elimination Schemes.

Definition dict : Type := list (string * json).

Fixpoint dict_get (k : string) (d : dict) : option json :=
  match d with
  | [] => None
  | (k', v) :: rest => if String.eqb k' k then Some v else dict_get k rest
  end.

(** [d[k] = v]: an existing key keeps its place and takes the new value. *)
Fixpoint dict_set (k : string) (v : json) (d : dict) : dict :=
  match d with
  | [] => [(k, v)]
  | (k', v') :: rest =>
      if String.eqb k' k then (k', v) :: rest else (k', v') :: dict_set k v rest
  end.

(** [dict(pairs)]. *)
Definition dict_of_pairs (pairs : list (string * json)) : dict :=
  fold_left (fun d kv => dict_set (fst kv) (snd kv) d) pairs [].

(** The decoder's whitespace: space, tab, line feed, carriage return. *)
Definition is_ws (c : ascii) : bool :=
  Ascii.eqb c " " || Ascii.eqb c "009" || Ascii.eqb c "010" || Ascii.eqb c "013".

Fixpoint skip_ws (s : string) : string :=
  match s with
  | "" => ""
  | String c s' => if is_ws c then skip_ws s' else s
  end.

Definition hex_val (c : ascii) : option N :=
  let n := N_of_ascii c in
  (if (48 <=? n) && (n <=? 57) then Some (n - 48)
   else if (65 <=? n) && (n <=? 70) then Some (n - 55)
   else if (97 <=? n) && (n <=? 102) then Some (n - 87)
   else None)%N.

Definition hex4 (a b c d : ascii) : option N :=
  match hex_val a, hex_val b, hex_val c, hex_val d with
  | Some x, Some y, Some z, Some w => Some (((x * 16 + y) * 16 + z) * 16 + w)%N
  | _, _, _, _ => None
  end.

Definition byte (n : N) : ascii := ascii_of_N (n mod 256)%N.

(** [chr(u)] as UTF-8 bytes (a lone surrogate takes the three-byte form). *)
Definition utf8 (u : N) : string :=
  (if u <? 128 then String (byte u) ""
   else if u <? 2048 then
     String (byte (192 + u / 64)) (String (byte (128 + u mod 64)) "")
   else if u <? 65536 then
     String (byte (224 + u / 4096))
       (String (byte (128 + (u / 64) mod 64)) (String (byte (128 + u mod 64)) ""))
   else
     String (byte (240 + u / 262144))
       (String (byte (128 + (u / 4096) mod 64))
          (String (byte (128 + (u / 64) mod 64)) (String (byte (128 + u mod 64)) ""))))%N.

Definition is_high_surrogate (u : N) : bool := ((55296 <=? u) && (u <=? 56319))%N.
Definition is_low_surrogate (u : N) : bool := ((56320 <=? u) && (u <=? 57343))%N.

Definition simple_escape (e : ascii) : option ascii :=
  if Ascii.eqb e dquote then Some dquote
  else if Ascii.eqb e "\" then Some "\"%char
  else if Ascii.eqb e "/" then Some "/"%char
  else if Ascii.eqb e "b" then Some "008"%char
  else if Ascii.eqb e "f" then Some "012"%char
  else if Ascii.eqb e "n" then Some "010"%char
  else if Ascii.eqb e "r" then Some "013"%char
  else if Ascii.eqb e "t" then Some "009"%char
  else None.

Definition bad_uescape : exn := JSONDecodeError "Invalid \uXXXX escape".

(** [scanstring] in strict mode, entered after the opening quote: the
    decoded string and the text after the closing quote. *)
Fixpoint scanstring (s : string) : result (string * string) :=
  let emit (t : string) (r : result (string * string)) :=
    rmap (fun p => (t ++ fst p, snd p)) r in
  match s with
  | "" => Raise (JSONDecodeError "Unterminated string starting at")
  | String c s1 =>
      if Ascii.eqb c dquote then Ok ("", s1)
      else if (N_of_ascii c <? 32)%N then
        Raise (JSONDecodeError "Invalid control character at")
      else if Ascii.eqb c "\" then
        match s1 with
        | "" => Raise (JSONDecodeError "Unterminated string starting at")
        | String e s2 =>
            if Ascii.eqb e "u" then
              match s2 with
              | String h1 (String h2 (String h3 (String h4 s3))) =>
                  match hex4 h1 h2 h3 h4 with
                  | None => Raise bad_uescape
                  | Some u =>
                      if is_high_surrogate u then
                        match s3 with
                        | String "\" (String "u" s4) =>
                            match s4 with
                            | String g1 (String g2 (String g3 (String g4 s5))) =>
                                match hex4 g1 g2 g3 g4 with
                                | None => Raise bad_uescape
                                | Some u2 =>
                                    if is_low_surrogate u2 then
                                      emit (utf8 (65536 + (u - 55296) * 1024 + (u2 - 56320))%N)
                                           (scanstring s5)
                                    else emit (utf8 u) (scanstring s3)
                                end
                            | _ => Raise bad_uescape
                            end
                        | _ => emit (utf8 u) (scanstring s3)
                        end
                      else emit (utf8 u) (scanstring s3)
                  end
              | _ => Raise bad_uescape
              end
            else
              match simple_escape e with
              | Some a => emit (String a "") (scanstring s2)
              | None => Raise (JSONDecodeError "Invalid \escape")
              end
        end
      else emit (String c "") (scanstring s1)
  end.

Fixpoint span_digits (s : string) : string * string :=
  match s with
  | "" => ("", "")
  | String c s' =>
      if is_digit c then let (d, r) := span_digits s' in (String c d, r)
      else ("", s)
  end.

Fixpoint digits_value (acc : Z) (s : string) : Z :=
  match s with
  | "" => acc
  | String c s' => digits_value (acc * 10 + (Z.of_nat (nat_of_ascii c) - 48)) s'
  end.

(** The integer part of the number pattern: zero alone, or a nonzero digit
    and the digits after it. *)
Definition match_int_part (s : string) : option (string * string) :=
  match s with
  | String c s' =>
      if Ascii.eqb c "0" then Some ("0", s')
      else if is_digit c then let (d, r) := span_digits s' in Some (String c d, r)
      else None
  | "" => None
  end.

(** The optional fraction: a dot and at least one digit. *)
Definition match_frac (s : string) : string * string :=
  match s with
  | String "." s' =>
      match span_digits s' with
      | ("", _) => ("", s)
      | (d, r) => (String "." d, r)
      end
  | _ => ("", s)
  end.

(** The optional exponent: e or E, an optional sign, at least one digit. *)
Definition match_exp (s : string) : string * string :=
  match s with
  | String c s' =>
      if Ascii.eqb c "e" || Ascii.eqb c "E" then
        let (sign, s'') :=
          match s' with
          | String g t => if Ascii.eqb g "+" || Ascii.eqb g "-"
                          then (String g "", t) else ("", s')
          | "" => ("", s')
          end in
        match span_digits s'' with
        | ("", _) => ("", s)
        | (d, r) => (String c (sign ++ d), r)
        end
      else ("", s)
  | "" => ("", s)
  end.

(** The longest run of digits [int] converts (the interpreter's default
    limit). *)
Definition int_max_str_digits : nat := 4300.

(** [int(digits)], negated when [neg]. *)
Definition int_of_digits (neg : bool) (digits : string) : result json :=
  if (int_max_str_digits <? String.length digits)%nat then
    Raise (ValueError "Exceeds the limit (4300 digits) for integer string conversion")
  else
    let v := digits_value 0 digits in
    Ok (JInt (if neg then - v else v)).

(** The scanner's number pattern at the head of [s]: an int when neither
    fraction nor exponent matched, a float otherwise.  The pattern either
    does not match, or the matched text is converted, which can raise. *)
Definition match_number (s : string) : option (result json * string) :=
  let (neg, s0) :=
    match s with
    | String "-" t => (true, t)
    | _ => (false, s)
    end in
  match match_int_part s0 with
  | None => None
  | Some (ip, s1) =>
      let (fp, s2) := match_frac s1 in
      let (ep, s3) := match_exp s2 in
      match fp, ep with
      | "", "" => Some (int_of_digits neg ip, s3)
      | _, _ => Some (Ok (JFloat ((if neg then "-" else "") ++ ip ++ fp ++ ep)), s3)
      end
  end.

Definition expecting_value : exn := JSONDecodeError "Expecting value".
Definition expecting_name : exn :=
  JSONDecodeError "Expecting property name enclosed in double quotes".

(** The scanner and the object and array parsers it calls.  Each takes the
    text still to read and returns the value with the text after it.
    [depth] is the number of objects and arrays that may still be entered,
    one inside the other: entering one more is Python's RecursionError.
    [fuel] bounds the calls of the model itself and plays no part in what is
    computed: [json_loads] grants three calls for each character of the
    text, and entering a value takes three calls and at least one
    character.  Where the library's scanner raises StopIteration, every
    caller turns it into the "Expecting value" decode error, which is raised
    here at once. *)
Fixpoint scan_once (fuel depth : nat) (s : string) : result (json * string) :=
  match fuel with
  | O => Raise RecursionError
  | S fuel' =>
      match s with
      | "" => Raise expecting_value
      | String c rest =>
          if Ascii.eqb c dquote then
            rmap (fun p => (JString (fst p), snd p)) (scanstring rest)
          else if Ascii.eqb c "{" then
            match depth with
            | O => Raise RecursionError
            | S depth' => JSONObject fuel' depth' rest
            end
          else if Ascii.eqb c "[" then
            match depth with
            | O => Raise RecursionError
            | S depth' => JSONArray fuel' depth' rest
            end
          else if String.prefix "null" s then Ok (JNull, drop 4 s)
          else if String.prefix "true" s then Ok (JBool true, drop 4 s)
          else if String.prefix "false" s then Ok (JBool false, drop 5 s)
          else
            match match_number s with
            | Some (r, rest') => rmap (fun v => (v, rest')) r
            | None =>
                if String.prefix "NaN" s then Ok (JFloat "NaN", drop 3 s)
                else if String.prefix "Infinity" s then Ok (JFloat "Infinity", drop 8 s)
                else if String.prefix "-Infinity" s then Ok (JFloat "-Infinity", drop 9 s)
                else Raise expecting_value
            end
      end
  end

(** After the opening brace. *)
with JSONObject (fuel depth : nat) (s : string) : result (json * string) :=
  match fuel with
  | O => Raise RecursionError
  | S fuel' =>
      match skip_ws s with
      | String c rest =>
          if Ascii.eqb c "}" then Ok (JObject [], rest)
          else if Ascii.eqb c dquote then object_members fuel' depth rest []
          else Raise expecting_name
      | "" => Raise expecting_name
      end
  end

(** One turn of the object loop, entered after the opening quote of a key;
    [pairs] holds the members read so far, last first. *)
with object_members (fuel depth : nat) (s : string) (pairs : list (string * json))
  : result (json * string) :=
  match fuel with
  | O => Raise RecursionError
  | S fuel' =>
      rbind (scanstring s) (fun ks =>
      let (key, s1) := ks in
      match skip_ws s1 with
      | String ":" s2 =>
          rbind (scan_once fuel' depth (skip_ws s2)) (fun vs =>
          let (value, s3) := vs in
          let pairs' := (key, value) :: pairs in
          match skip_ws s3 with
          | String c s4 =>
              if Ascii.eqb c "}" then Ok (JObject (dict_of_pairs (rev pairs')), s4)
              else if Ascii.eqb c "," then
                match skip_ws s4 with
                | String q s5 =>
                    if Ascii.eqb q dquote then object_members fuel' depth s5 pairs'
                    else Raise expecting_name
                | "" => Raise expecting_name
                end
              else Raise (JSONDecodeError "Expecting ',' delimiter")
          | "" => Raise (JSONDecodeError "Expecting ',' delimiter")
          end)
      | _ => Raise (JSONDecodeError "Expecting ':' delimiter")
      end)
  end

(** After the opening bracket. *)
with JSONArray (fuel depth : nat) (s : string) : result (json * string) :=
  match fuel with
  | O => Raise RecursionError
  | S fuel' =>
      match skip_ws s with
      | String "]" rest => Ok (JArray [], rest)
      | s' => array_items fuel' depth s' []
      end
  end

(** One turn of the array loop; [values] holds the items read so far, last
    first. *)
with array_items (fuel depth : nat) (s : string) (values : list json)
  : result (json * string) :=
  match fuel with
  | O => Raise RecursionError
  | S fuel' =>
      rbind (scan_once fuel' depth s) (fun vs =>
      let (value, s1) := vs in
      let values' := value :: values in
      match skip_ws s1 with
      | String c s2 =>
          if Ascii.eqb c "]" then Ok (JArray (rev values'), s2)
          else if Ascii.eqb c "," then array_items fuel' depth (skip_ws s2) values'
          else Raise (JSONDecodeError "Expecting ',' delimiter")
      | "" => Raise (JSONDecodeError "Expecting ',' delimiter")
      end)
  end.

(** How deep objects and arrays may nest: the interpreter's default
    recursion limit.  The frames in use when the decoder is entered are not
    counted. *)
Definition recursion_limit : nat := 1000.

(** The byte-order mark U+FEFF, which [loads] refuses at the head of a str. *)
Definition BOM : string := utf8 65279.

(** [json.loads(s)] for a str argument: one value, whitespace around it
    allowed, nothing else after it. *)
Definition json_loads (s : string) : result json :=
  if String.prefix BOM s then
    Raise (JSONDecodeError "Unexpected UTF-8 BOM (decode using utf-8-sig)")
  else
    rbind (scan_once (3 * String.length s + 3)%nat recursion_limit (skip_ws s))
          (fun vs =>
    let (obj, rest) := vs in
    match skip_ws rest with
    | "" => Ok obj
    | _ => Raise (JSONDecodeError "Extra data")
    end).

End Json.
Export Json.

(* ===================================================================== *)
(** * pydantic: the ToolCall model *)
(* ===================================================================== *)

Module Pydantic.

(** [class ToolCall(BaseModel)]: [tool_name: str], [parameters: dict]. *)
Record ToolCall : Type := {
  tool_name : string;
  parameters : dict
}.

(** Validation of one required field: the value, or the error entry
    (field, error type) the model reports for it. *)
Definition require_str (field : string) (kwargs : dict)
  : string + (string * string) :=
  match dict_get field kwargs with
  | None => inr (field, "missing")
  | Some (JString s) => inl s
  | Some _ => inr (field, "string_type")
  end.

Definition require_dict (field : string) (kwargs : dict)
  : dict + (string * string) :=
  match dict_get field kwargs with
  | None => inr (field, "missing")
  | Some (JObject d) => inl d
  | Some _ => inr (field, "dict_type")
  end.

Definition error_of {A : Type} (r : A + (string * string)) : list (string * string) :=
  match r with
  | inl _ => []
  | inr e => [e]
  end.

(** The model's constructor on keyword arguments: both fields are required
    (neither declares a default), every field is validated and all errors
    are reported together; keyword arguments that name no field are
    ignored. *)
Definition ToolCall_init (kwargs : dict) : result ToolCall :=
  let n := require_str "tool_name" kwargs in
  let p := require_dict "parameters" kwargs in
  match n, p with
  | inl name, inl params => Ok {| tool_name := name; parameters := params |}
  | _, _ => Raise (ValidationError (error_of n ++ error_of p))
  end.

(** [ToolCall( **data )]: unpacking needs a mapping. *)
Definition ToolCall_unpack (data : json) : result ToolCall :=
  match data with
  | JObject kwargs => ToolCall_init kwargs
  | _ => Raise (TypeError "argument after ** must be a mapping")
  end.

End Pydantic.
Export Pydantic.

(* ===================================================================== *)
(** * The script *)
(* ===================================================================== *)

Module Orchestrator.

Definition LF : string := String "010" "".

Definition TOOL_DOC : string :=
  "
Available tools (call exactly one):

1) add_ecu
   parameters:
     - id (string)
     - cpu (string, optional)
     - memories (list of {type:string, size_mb:int}, optional)
     - controllers (list of {type:string, count:int}, optional)
     - uncertainty (list of strings, optional)

2) add_protocol
   parameters:
     - protocol (string or list of strings)  // allowed values: CAN, Ethernet, LIN, FlexRay

3) add_hwip_block
   parameters:
     - ecu_id (string)
     - type (string)  // e.g., I2C, SPI, UART
     - count (int)

4) validate_configuration
   parameters:
     - config (object)  // pass current config object

5) create_configuration
   parameters:
     - ecu_count (int, optional)
     - ecus (list of ECU objects)
     - protocols (list of strings)
     - power_budget_w (float, optional)
     - notes (string, optional)

Rules:
- You must output ONLY a single JSON object: 
  { " ++ DQ ++ "tool_name" ++ DQ ++ ": " ++ DQ ++ "tool_name_here" ++ DQ ++ ", " ++ DQ ++ "parameters" ++ DQ ++ ": { ... } }
- DO NOT output any extra text, explanation, or markdown.
- If uncertain, set a field to null and include its name in " ++ DQ ++ "uncertainty" ++ DQ ++ ".
".

Definition PROMPT_TEMPLATE : string :=
  "You are an assistant that converts a user instruction into a single tool call.
{tool_doc}

User instruction:
" ++ DQ ++ "" ++ DQ ++ "" ++ DQ ++ "{user_input}" ++ DQ ++ "" ++ DQ ++ "" ++ DQ ++ "

Return exactly one JSON object representing the tool call.
".

(** The prompt builder: the expression
    [PROMPT_TEMPLATE.format(tool_doc=..., user_input=...)] of [run_tests]. *)
Definition build_prompt (tool_doc user_input : string) : result string :=
  str_format PROMPT_TEMPLATE [("tool_doc", tool_doc); ("user_input", user_input)].

(** ** JSON extractor *)

Definition extract_first_json (text : string) : result (option string) :=
  try_except
    (rbind (str_index text "{") (fun start =>
     let end_ := str_rfind text "}" in
     Ok (Some (str_slice text start (end_ + 1)))))
    is_Exception
    (fun _ => Ok None).

(** ** Effects *)

(** One argument of a [print] call.  [PSeconds dt] is the f-string
    [" Time: {elapsed:.2f}s"] for an elapsed time of [dt] clock units; the
    rendering of a float is not modelled. *)
Inductive printable : Type :=
| PStr (s : string)
| PExn (e : exn)
| PDict (d : dict)
| PSeconds (dt : Z).

(** What [subprocess.run] meets: a process that ran to its end and whose
    captured streams decode as text; a process that was started, but with
    which text could not be exchanged (a captured stream does not decode in
    the locale's encoding, whatever the return code, or the input does not
    encode), with the Unicode error raised then; a process that could not be
    started, with the exception [Popen] raises then. *)
Inductive proc_outcome : Type :=
| Exited (returncode : Z) (stdout stderr : string)
| Garbled (e : exn)
| NotStarted (e : exn).

Definition started (o : proc_outcome) : bool :=
  match o with
  | Exited _ _ _ => true
  | Garbled _ => true
  | NotStarted _ => false
  end.

(** The process ran to its end and its streams were read as text. *)
Definition completed (o : proc_outcome) : bool :=
  match o with
  | Exited _ _ _ => true
  | Garbled _ => false
  | NotStarted _ => false
  end.

(** The collaborators outside the script: the argument parser, applied to
    the command line; the process the [n]-th [subprocess.run] call meets,
    given its command and input; the [n]-th reading of the clock; and
    whether the encoding of standard output, with its error handler, takes
    the text of a [print] call with the given arguments. *)
Record world : Type := {
  parse_args : list string -> result string;
  spawn : nat -> list string -> string -> proc_outcome;
  time_time : nat -> Z;
  stdout_encodes : list printable -> bool
}.

Record state : Type := {
  console : list (list printable);   (* the completed [print] calls, in order *)
  spawned : nat;                     (* [subprocess.run] calls so far *)
  clock_reads : nat                  (* [time.time()] calls so far *)
}.

Definition init_state : state :=
  {| console := []; spawned := O; clock_reads := O |}.

Definition M (A : Type) : Type := state -> result A * state.

Definition ret {A : Type} (a : A) : M A := fun st => (Ok a, st).

Definition bind {A B : Type} (m : M A) (k : A -> M B) : M B :=
  fun st =>
    match m st with
    | (Ok a, st') => k a st'
    | (Raise e, st') => (Raise e, st')
    end.

Notation "x <- m ;; k" := (bind m (fun x => k))
  (at level 61, m at next level, right associativity).
Notation "m ;; k" := (bind m (fun _ => k))
  (at level 61, right associativity).

Definition lift {A : Type} (r : result A) : M A := fun st => (r, st).

(** [try: body / except <class> as e: handler e]. *)
Definition try_catch {A : Type} (body : M A) (catches : exn -> bool)
           (handler : exn -> M A) : M A :=
  fun st =>
    match body st with
    | (Ok a, st') => (Ok a, st')
    | (Raise e, st') => if catches e then handler e st' else (Raise e, st')
    end.

Definition is_ascii (s : string) : bool :=
  forallb (fun c => (nat_of_ascii c <? 128)%nat) (list_ascii_of_string s).

(** The arguments of a [print] call whose text is ASCII for sure: strings
    of ASCII characters and the elapsed time.  How an exception or a dict is
    rendered is not modelled, so nothing is said of them. *)
Definition ascii_line (args : list printable) : bool :=
  forallb (fun p => match p with
                    | PStr s => is_ascii s
                    | PSeconds _ => true
                    | PExn _ => false
                    | PDict _ => false
                    end) args.

(** Whether standard output takes the text of a [print] call: ASCII text
    is written whatever the encoding; other text when the encoding takes
    it. *)
Definition can_print (w : world) (args : list printable) : bool :=
  ascii_line args || stdout_encodes w args.

(** [print( *args )]: raises UnicodeEncodeError when standard output does
    not take the text.  The console keeps the calls that completed.  A
    failure of the stream itself (a closed or broken pipe) is not
    modelled. *)
Definition print (w : world) (args : list printable) : M unit :=
  fun st =>
    if can_print w args then
      (Ok tt, {| console := console st ++ [args];
                 spawned := spawned st;
                 clock_reads := clock_reads st |})
    else (Raise UnicodeEncodeError, st).

Definition time_now (w : world) : M Z :=
  fun st =>
    (Ok (time_time w (clock_reads st)),
     {| console := console st;
        spawned := spawned st;
        clock_reads := S (clock_reads st) |}).

Record CompletedProcess : Type := {
  args : list string;
  returncode : Z;
  stdout : string;
  stderr : string
}.

(** [subprocess.run(cmd, input=input, text=True, capture_output=True,
    check=True)]: the captured streams are decoded first, then, with
    [check], a nonzero return code raises CalledProcessError carrying both
    of them. *)
Definition subprocess_run (w : world) (cmd : list string) (input : string)
  : M CompletedProcess :=
  fun st =>
    let st' := {| console := console st;
                  spawned := S (spawned st);
                  clock_reads := clock_reads st |} in
    match spawn w (spawned st) cmd input with
    | NotStarted e => (Raise e, st')
    | Garbled e => (Raise e, st')
    | Exited rc out err =>
        if rc =? 0
        then (Ok {| args := cmd; returncode := rc; stdout := out; stderr := err |}, st')
        else (Raise (CalledProcessError rc cmd out err), st')
    end.

(** [e.stderr] of the exception bound by the handler of [ollama_run], which
    only receives a CalledProcessError. *)
Definition exn_stderr (e : exn) : string :=
  match e with
  | CalledProcessError _ _ _ err => err
  | _ => ""
  end.

(** ** Schema validator *)

Definition parse_tool_call (w : world) (output : string) : M (option ToolCall) :=
  j <- lift (extract_first_json output) ;;
  match j with
  | None => ret None
  | Some jtext =>
      if negb (str_truthy jtext) then ret None
      else
        try_catch
          (data <- lift (json_loads jtext) ;;
           call <- lift (ToolCall_unpack data) ;;
           ret (Some call))
          is_Exception
          (fun e =>
             print w [PStr "❌ JSON parse failed:"; PExn e] ;;
             print w [PStr "Raw text:"; PStr output] ;;
             ret None)
  end.

(** ** Ollama runner *)

Definition ollama_run (w : world) (model prompt : string) : M string :=
  let cmd := ["ollama"; "run"; model] in
  try_catch
    (res <- subprocess_run w cmd prompt ;;
     ret (strip (stdout res)))
    is_CalledProcessError
    (fun e =>
       print w [PStr "Ollama error:"; PStr (exn_stderr e)] ;;
       ret "").

(** ** Test scenarios *)

Definition SCENARIOS : list (string * string) :=
  [ ("S1_simple_ecu", "Create an ECU with Cortex-M4 and 2 CAN controllers.");
    ("S2_protocols", "The system should support both CAN and Ethernet communication.");
    ("S3_memory", "Add an ECU with Cortex-R5, 4MB Flash memory and 2 SPI controllers.");
    ("S4_hwip", "Attach an I2C block to ECU-1.");
    ("S5_validate", "Check if the configuration is valid.");
    ("S6_ambiguous", "Create an ECU with Cortex-M6 and 3 CAN controllers.") ].

(** ** Runner *)

(** [for x in xs: body x]. *)
Fixpoint for_each {A : Type} (xs : list A) (body : A -> M unit) : M unit :=
  match xs with
  | [] => ret tt
  | x :: rest => body x ;; for_each rest body
  end.

(** The body of the loop of [run_tests] for one scenario. *)
Definition run_scenario (w : world) (model : string) (sc : string * string)
  : M unit :=
  let (sid, user) := sc in
  print w [PStr (LF ++ "--- " ++ sid ++ " ---")] ;;
  prompt <- lift (build_prompt TOOL_DOC user) ;;
  start <- time_now w ;;
  out <- ollama_run w model prompt ;;
  stop <- time_now w ;;
  let elapsed := stop - start in
  call <- parse_tool_call w out ;;
  match call with
  | Some c =>
      print w [PStr "✅ Tool:"; PStr (tool_name c)] ;;
      print w [PStr "Parameters:"; PDict (parameters c)]
  | None =>
      print w [PStr "❌ Failed to parse tool call."]
  end ;;
  print w [PSeconds elapsed].

Definition run_tests (w : world) (model : string) : M unit :=
  print w [PStr (" Testing model: " ++ model)] ;;
  for_each SCENARIOS (run_scenario w model).




End Orchestrator.
Export Orchestrator.

(* ===================================================================== *)
(** * Specification-side notions *)
(* ===================================================================== *)

(** [r] is the part of [text] from its first opening brace through its last
    closing brace, both included: [r] opens and closes with a brace, no
    opening brace stands before it and no closing brace after it. *)
Definition brace_span (text r : string) : Prop :=
  exists pre mid post,
    text = pre ++ r ++ post /\
    r = "{" ++ mid ++ "}" /\
    find_char "{" pre = None /\
    find_char "}" post = None.

(** A computation that raises nothing outside the Exception hierarchy. *)
Definition raises_Exception_only {A : Type} (r : result A) : Prop :=
  match r with
  | Ok _ => True
  | Raise e => is_Exception e = true
  end.

(** The three literal pieces of the prompt around the two substituted
    strings, and the delimiter that wraps the instruction. *)
Definition PROMPT_HEAD : string :=
  "You are an assistant that converts a user instruction into a single tool call.
".

Definition PROMPT_MID : string := "

User instruction:
".

Definition DELIM : string := DQ ++ DQ ++ DQ.

Definition PROMPT_TAIL : string := "

Return exactly one JSON object representing the tool call.
".

(** Standard output takes every line whatever it holds (as it does with a
    forgiving error handler). *)
Definition stdout_takes_all (w : world) : Prop :=
  forall line, stdout_encodes w line = true.

(** What the handler of [parse_tool_call] leaves for the exception [e] and
    the output [output]: two lines and no call, or a UnicodeEncodeError at
    the first line standard output does not take. *)
Definition failure_report (w : world) (e : exn) (output : string) (st : state)
  : result (option ToolCall) * state :=
  let line1 := [PStr "❌ JSON parse failed:"; PExn e] in
  let line2 := [PStr "Raw text:"; PStr output] in
  if can_print w line1 then
    if can_print w line2 then
      (Ok None, {| console := console st ++ [line1; line2];
                   spawned := spawned st;
                   clock_reads := clock_reads st |})
    else
      (Raise UnicodeEncodeError,
       {| console := console st ++ [line1];
          spawned := spawned st;
          clock_reads := clock_reads st |})
  else (Raise UnicodeEncodeError, st).


(** The state after [print] calls with the argument lists [lines]. *)
Definition printed (st : state) (lines : list (list printable)) : state :=
  {| console := console st ++ lines;
     spawned := spawned st;
     clock_reads := clock_reads st |}.

(** The state after one more [subprocess.run] call. *)
Definition after_spawn (st : state) : state :=
  {| console := console st;
     spawned := S (spawned st);
     clock_reads := clock_reads st |}.

(** The command line of the model process. *)
Definition ollama_cmd (model : string) : list string := ["ollama"; "run"; model].

(** ** Sample environments *)

(** The [ollama] executable is not installed: the process cannot start. *)
Definition ollama_absent : world :=
  {| parse_args := fun _ => Ok "llama3";
     spawn := fun _ _ _ => NotStarted (FileNotFoundError "ollama");
     time_time := fun n => Z.of_nat n;
     stdout_encodes := fun _ => true |}.

(** Every invocation exits with status 1 and a message on its error
    stream. *)
Definition ollama_failing : world :=
  {| parse_args := fun _ => Ok "llama3";
     spawn := fun _ _ _ => Exited 1 "" "Error: model not found";
     time_time := fun n => Z.of_nat n;
     stdout_encodes := fun _ => true |}.

(** Invocations fail and succeed in turn; the successful ones answer with
    prose that holds no JSON object. *)
Definition ollama_flaky : world :=
  {| parse_args := fun _ => Ok "llama3";
     spawn := fun n _ _ => if Nat.even n
                           then Exited 1 "" "Error: model not found"
                           else Exited 0 "I think the answer is CAN." "";
     time_time := fun n => Z.of_nat n;
     stdout_encodes := fun _ => true |}.

(** The model answers every prompt with the same text on its output
    stream and exits with status 0. *)
Definition ollama_answering (answer : string) : world :=
  {| parse_args := fun _ => Ok "llama3";
     spawn := fun _ _ _ => Exited 0 answer "";
     time_time := fun n => Z.of_nat n;
     stdout_encodes := fun _ => true |}.

(** As [ollama_answering], on a standard output that takes ASCII text
    only. *)
Definition ascii_console (answer : string) : world :=
  {| parse_args := fun _ => Ok "llama3";
     spawn := fun _ _ _ => Exited 0 answer "";
     time_time := fun n => Z.of_nat n;
     stdout_encodes := fun _ => false |}.

(** The model process runs to its end, but what it wrote does not decode as
    text. *)
Definition ollama_garbled : world :=
  {| parse_args := fun _ => Ok "llama3";
     spawn := fun _ _ _ => Garbled UnicodeDecodeError;
     time_time := fun n => Z.of_nat n;
     stdout_encodes := fun _ => true |}.

(** ** Comparing states *)

(** [st'] comes after [st] at the price of at most [k] process
    invocations: the console has only grown at its end, and the count of
    invocations has gone up by [k] at most. *)
Definition extends (k : nat) (st st' : state) : Prop :=
  (exists lines, console st' = (console st ++ lines)%list) /\
  (spawned st <= spawned st' <= spawned st + k)%nat.

(** [m] leaves, however it ends, a state that comes after the one it was
    started in, at the price of at most [k] invocations. *)
Definition append_only {A : Type} (k : nat) (m : M A) : Prop :=
  forall st, extends k st (snd (m st)).

(** The first character of [s], if any, is no whitespace. *)
Definition no_leading_space (s : string) : Prop :=
  match s with
  | "" => True
  | String c _ => is_space c = false
  end.

(* ===================================================================== *)
(** * Strings: searching and slicing *)
(* ===================================================================== *)

Section StringFacts.

Variable c : ascii.

Lemma length_app (a b : string) :
  String.length (a ++ b) = (String.length a + String.length b)%nat.
Proof.
  induction a as [|x a IH]; simpl; [reflexivity | now rewrite IH].
Qed.

Lemma drop_app (a b : string) : drop (String.length a) (a ++ b) = b.
Proof.
  induction a as [|x a IH]; simpl; [now destruct b | exact IH].
Qed.

Lemma take_app (a b : string) : take (String.length a) (a ++ b) = a.
Proof.
  induction a as [|x a IH]; simpl; [reflexivity | now rewrite IH].
Qed.

Lemma take_all (a : string) : take (String.length a) a = a.
Proof.
  induction a as [|x a IH]; simpl; [reflexivity | now rewrite IH].
Qed.

Lemma app_empty_r (a : string) : a ++ "" = a.
Proof.
  induction a as [|x a IH]; simpl; [reflexivity | now rewrite IH].
Qed.

Lemma app_assoc_str (a b d : string) : (a ++ b) ++ d = a ++ b ++ d.
Proof.
  induction a as [|x a IH]; simpl; [reflexivity | now rewrite IH].
Qed.

(** The first occurrence after a prefix that has none. *)
Lemma find_char_after (pre rest : string) :
  find_char c pre = None ->
  find_char c (pre ++ String c rest) = Some (String.length pre).
Proof.
  induction pre as [|x pre IH]; simpl.
  - intros _. now rewrite Ascii.eqb_refl.
  - destruct (Ascii.eqb x c); [discriminate|].
    destruct (find_char c pre); [discriminate|].
    intros _. now rewrite IH.
Qed.

Lemma rfind_none_find_none (s : string) :
  rfind_char c s = None <-> find_char c s = None.
Proof.
  induction s as [|x s IH]; simpl; [tauto|].
  destruct (rfind_char c s), (find_char c s), (Ascii.eqb x c);
    simpl; split; intros H; try discriminate; try reflexivity;
    destruct IH as [I1 I2]; try (specialize (I1 eq_refl)); try (specialize (I2 eq_refl));
    discriminate.
Qed.

(** The last occurrence before a suffix that has none. *)
Lemma rfind_char_before (s post : string) :
  find_char c post = None ->
  rfind_char c (s ++ String c post) = Some (String.length s).
Proof.
  intros H. apply rfind_none_find_none in H.
  induction s as [|x s IH]; simpl.
  - rewrite H. now rewrite Ascii.eqb_refl.
  - now rewrite IH.
Qed.

(** With no occurrence in the suffix, the last one lies in the prefix. *)
Lemma rfind_char_in_prefix (a b : string) (j : nat) :
  rfind_char c b = None ->
  rfind_char c (a ++ b) = Some j ->
  (j < String.length a)%nat.
Proof.
  intros Hb. revert j. induction a as [|x a IH]; simpl; intros j Hj.
  - rewrite Hb in Hj. discriminate.
  - destruct (rfind_char c (a ++ b)) as [k|].
    + injection Hj as <-. specialize (IH k eq_refl). lia.
    + destruct (Ascii.eqb x c); [|discriminate].
      injection Hj as <-. lia.
Qed.

(** Where the first occurrence is, when there is one. *)
Lemma find_char_split (s : string) (i : nat) :
  find_char c s = Some i ->
  exists pre rest,
    s = pre ++ String c rest /\ find_char c pre = None /\ String.length pre = i.
Proof.
  revert i. induction s as [|x s IH]; simpl; [discriminate|].
  intros i. destruct (Ascii.eqb_spec x c) as [->|Hne].
  - intros [= <-]. now exists "", s.
  - destruct (find_char c s) as [k|]; [|discriminate].
    intros [= <-]. destruct (IH k eq_refl) as (pre & rest & -> & Hp & Hl).
    exists (String x pre), rest. simpl.
    apply Ascii.eqb_neq in Hne. rewrite Hne, Hp, Hl. auto.
Qed.

End StringFacts.

Lemma clamp_inside (len i : Z) : 0 <= i <= len -> clamp_index len i = i.
Proof.
  intros H. unfold clamp_index.
  destruct (Z.ltb_spec i 0); lia.
Qed.

(** A slice whose bounds fall on the seams of a concatenation. *)
Lemma str_slice_middle (pre mid post : string) :
  str_slice (pre ++ mid ++ post)
            (Z.of_nat (String.length pre))
            (Z.of_nat (String.length pre + String.length mid)) = mid.
Proof.
  unfold str_slice. rewrite !length_app.
  rewrite !clamp_inside by lia.
  replace (Z.to_nat (Z.of_nat (String.length pre + String.length mid)
                     - Z.of_nat (String.length pre)))
    with (String.length mid) by lia.
  rewrite Nat2Z.id, drop_app. apply take_app.
Qed.

(** A slice whose upper bound does not exceed its lower bound is empty. *)
Lemma str_slice_crossed (s : string) (lo hi : Z) :
  0 <= hi <= lo -> str_slice s lo hi = "".
Proof.
  intros H. unfold str_slice, clamp_index.
  destruct (Z.ltb_spec lo 0); [lia|].
  destruct (Z.ltb_spec hi 0); [lia|].
  replace (Z.to_nat _) with O by lia.
  reflexivity.
Qed.

(* ===================================================================== *)
(** * The JSON extractor *)
(* ===================================================================== *)

Lemma extract_no_open_brace (text : string) :
  find_char "{" text = None -> extract_first_json text = Ok None.
Proof.
  intros H. unfold extract_first_json, str_index. now rewrite H.
Qed.

Lemma extract_span (pre mid post : string) :
  find_char "{" pre = None ->
  find_char "}" post = None ->
  extract_first_json (pre ++ "{" ++ mid ++ "}" ++ post)
  = Ok (Some ("{" ++ mid ++ "}")).
Proof.
  intros Hpre Hpost.
  assert (Hf : find_char "{" (pre ++ "{" ++ mid ++ "}" ++ post)
               = Some (String.length pre))
    by (apply (find_char_after "{" pre (mid ++ "}" ++ post) Hpre)).
  assert (Hr : rfind_char "}" (pre ++ "{" ++ mid ++ "}" ++ post)
               = Some (String.length pre + String.length ("{" ++ mid))%nat).
  { rewrite <- length_app.
    replace (pre ++ "{" ++ mid ++ "}" ++ post)
      with ((pre ++ "{" ++ mid) ++ String "}" post)
      by (now rewrite !app_assoc_str).
    now apply rfind_char_before. }
  unfold extract_first_json, str_index, str_rfind.
  rewrite Hf, Hr. unfold rbind, try_except. do 2 f_equal.
  replace (pre ++ "{" ++ mid ++ "}" ++ post)
    with (pre ++ ("{" ++ mid ++ "}") ++ post)
    by (now rewrite !app_assoc_str).
  replace (Z.of_nat (String.length pre + String.length ("{" ++ mid)) + 1)
    with (Z.of_nat (String.length pre + String.length ("{" ++ mid ++ "}"))).
  - apply str_slice_middle.
  - rewrite !length_app. simpl. lia.
Qed.

Lemma extract_crossed (text : string) (i : nat) :
  find_char "{" text = Some i ->
  (rfind_char "}" text = None \/
   exists j, rfind_char "}" text = Some j /\ (j < i)%nat) ->
  extract_first_json text = Ok (Some "").
Proof.
  intros Hi Hj. unfold extract_first_json, str_index, str_rfind.
  rewrite Hi. simpl.
  destruct Hj as [-> | (j & -> & Hlt)].
  - now rewrite str_slice_crossed by lia.
  - now rewrite str_slice_crossed by lia.
Qed.

Lemma extract_never_raises (text : string) :
  exists r, extract_first_json text = Ok r.
Proof.
  unfold extract_first_json, str_index.
  destruct (find_char "{" text); simpl; eauto.
Qed.

(* ===================================================================== *)
(** * The decoder raises only what [except Exception] catches *)
(* ===================================================================== *)

Lemma rbind_safe {A B : Type} (r : result A) (k : A -> result B) :
  raises_Exception_only r ->
  (forall a, raises_Exception_only (k a)) ->
  raises_Exception_only (rbind r k).
Proof.
  destruct r as [a|e]; simpl; auto.
Qed.

Lemma rmap_safe {A B : Type} (f : A -> B) (r : result A) :
  raises_Exception_only r -> raises_Exception_only (rmap f r).
Proof.
  destruct r as [a|e]; simpl; auto.
Qed.

(** One step through the shape of a decoder body. *)
Ltac safe_step :=
  match goal with
  | |- raises_Exception_only (Ok _) => exact I
  | |- raises_Exception_only (Raise _) => reflexivity
  | |- raises_Exception_only (rmap _ _) => apply rmap_safe
  | |- raises_Exception_only (rbind _ _) => apply rbind_safe; [|intros]
  | |- raises_Exception_only (let (_, _) := ?p in _) => destruct p
  | |- raises_Exception_only (if ?b then _ else _) => destruct b
  | |- raises_Exception_only (match ?x with _ => _ end) => destruct x
  end.

Lemma scanstring_safe_upto (n : nat) :
  forall s, (String.length s <= n)%nat -> raises_Exception_only (scanstring s).
Proof.
  induction n as [|n IH]; intros s Hlen.
  - destruct s; [reflexivity | simpl in Hlen; lia].
  - destruct s as [|c s1]; [reflexivity|].
    cbn [scanstring].
    repeat (safe_step;
            try (apply IH; cbn [String.length] in *; lia)).
Qed.

Lemma scanstring_safe (s : string) : raises_Exception_only (scanstring s).
Proof.
  apply (scanstring_safe_upto (String.length s)). lia.
Qed.

Lemma int_of_digits_safe (neg : bool) (digits : string) :
  raises_Exception_only (int_of_digits neg digits).
Proof.
  unfold int_of_digits.
  destruct (int_max_str_digits <? String.length digits)%nat; [reflexivity | exact I].
Qed.

Lemma match_number_safe (s rest : string) (r : result json) :
  match_number s = Some (r, rest) -> raises_Exception_only r.
Proof.
  unfold match_number.
  destruct (match s with String "-" t => (true, t) | _ => (false, s) end)
    as [neg s0].
  destruct (match_int_part s0) as [[ip s1]|]; [|discriminate].
  destruct (match_frac s1) as [fp s2]. destruct (match_exp s2) as [ep s3].
  destruct fp; destruct ep; intros [= <- _];
    solve [apply int_of_digits_safe | exact I].
Qed.

Lemma decoder_safe (fuel : nat) :
  (forall d s, raises_Exception_only (scan_once fuel d s)) /\
  (forall d s, raises_Exception_only (JSONObject fuel d s)) /\
  (forall d s pairs, raises_Exception_only (object_members fuel d s pairs)) /\
  (forall d s, raises_Exception_only (JSONArray fuel d s)) /\
  (forall d s values, raises_Exception_only (array_items fuel d s values)).
Proof.
  induction fuel as [|fuel (IHs & IHo & IHm & IHa & IHi)].
  - repeat split; intros; reflexivity.
  - repeat split; intros;
      cbn [scan_once JSONObject object_members JSONArray array_items];
      repeat match goal with
             | |- raises_Exception_only (match match_number ?s with _ => _ end) =>
                 let E := fresh "E" in
                 destruct (match_number s) as [[? ?]|] eqn:E;
                 [apply rmap_safe; exact (match_number_safe _ _ _ E)|]
             | _ => safe_step; auto using scanstring_safe
             end.
Qed.

Lemma json_loads_safe (s : string) : raises_Exception_only (json_loads s).
Proof.
  unfold json_loads.
  destruct (String.prefix BOM s); [reflexivity|].
  apply rbind_safe; [apply decoder_safe|].
  intros [obj rest]. destruct (skip_ws rest); [exact I | reflexivity].
Qed.

(* ===================================================================== *)
(** * The ToolCall model *)
(* ===================================================================== *)

Lemma ToolCall_init_ok (kwargs params : dict) (name : string) :
  dict_get "tool_name" kwargs = Some (JString name) ->
  dict_get "parameters" kwargs = Some (JObject params) ->
  ToolCall_init kwargs = Ok {| tool_name := name; parameters := params |}.
Proof.
  intros Hn Hp. unfold ToolCall_init, require_str, require_dict.
  now rewrite Hn, Hp.
Qed.

Lemma ToolCall_init_inv (kwargs : dict) (call : ToolCall) :
  ToolCall_init kwargs = Ok call ->
  dict_get "tool_name" kwargs = Some (JString (tool_name call)) /\
  dict_get "parameters" kwargs = Some (JObject (parameters call)).
Proof.
  unfold ToolCall_init, require_str, require_dict.
  destruct (dict_get "tool_name" kwargs) as [[| | | | name | |]|];
    destruct (dict_get "parameters" kwargs) as [[| | | | | |params]|];
    try discriminate.
  intros [= <-]. auto.
Qed.

Lemma ToolCall_init_missing_parameters (kwargs : dict) :
  dict_get "parameters" kwargs = None ->
  exists errors,
    ToolCall_init kwargs = Raise (ValidationError errors) /\
    In ("parameters", "missing") errors.
Proof.
  intros Hp. unfold ToolCall_init, require_str, require_dict. rewrite Hp.
  destruct (dict_get "tool_name" kwargs) as [[| | | | name | |]|];
    eexists; (split; [reflexivity | simpl; auto]).
Qed.

Lemma ToolCall_unpack_safe (data : json) :
  raises_Exception_only (ToolCall_unpack data).
Proof.
  destruct data; try reflexivity.
  unfold ToolCall_unpack, ToolCall_init.
  destruct (require_str _ _), (require_dict _ _); reflexivity || exact I.
Qed.

(* ===================================================================== *)
(** * The prompt builder *)
(* ===================================================================== *)

Lemma build_prompt_eq (tool_doc user_input : string) :
  build_prompt tool_doc user_input
  = Ok (PROMPT_HEAD ++ tool_doc ++ PROMPT_MID
        ++ DELIM ++ user_input ++ DELIM ++ PROMPT_TAIL).
Proof.
  reflexivity.
Qed.

(* ===================================================================== *)
(** * Reasoning about effectful code *)
(* ===================================================================== *)




Lemma print_written (w : world) (line : list printable) (st : state) :
  can_print w line = true ->
  print w line st = (Ok tt, printed st [line]).
Proof.
  intros H. unfold print. now rewrite H.
Qed.

Lemma print_refused (w : world) (line : list printable) (st : state) :
  can_print w line = false ->
  print w line st = (Raise UnicodeEncodeError, st).
Proof.
  intros H. unfold print. now rewrite H.
Qed.

Lemma can_print_all (w : world) (line : list printable) :
  stdout_takes_all w -> can_print w line = true.
Proof.
  intros H. unfold can_print. rewrite (H line). apply orb_true_r.
Qed.




Lemma printed_printed (st : state) (l1 l2 : list (list printable)) :
  printed (printed st l1) l2 = printed st (l1 ++ l2).
Proof.
  unfold printed. simpl. now rewrite app_assoc.
Qed.

Lemma printed_nil (st : state) : printed st [] = st.
Proof.
  destruct st. unfold printed. simpl. now rewrite app_nil_r.
Qed.

(* ===================================================================== *)
(** * The validator *)
(* ===================================================================== *)

Lemma parse_tool_call_no_json (w : world) (output : string) (st : state) :
  extract_first_json output = Ok None \/ extract_first_json output = Ok (Some "") ->
  parse_tool_call w output st = (Ok None, st).
Proof.
  unfold parse_tool_call, bind, lift. now intros [-> | ->].
Qed.

Lemma parse_tool_call_valid (w : world) (output j : string) (data : json)
      (call : ToolCall) (st : state) :
  extract_first_json output = Ok (Some j) ->
  str_truthy j = true ->
  json_loads j = Ok data ->
  ToolCall_unpack data = Ok call ->
  parse_tool_call w output st = (Ok (Some call), st).
Proof.
  intros He Ht Hj Hc. unfold parse_tool_call, bind, lift, try_catch.
  now rewrite He, Ht, Hj, Hc.
Qed.

(** The handler of [parse_tool_call], run for a caught exception. *)
Lemma handler_is_failure_report (w : world) (e : exn) (output : string)
      (st : state) :
  bind (print w [PStr "❌ JSON parse failed:"; PExn e])
       (fun _ => bind (print w [PStr "Raw text:"; PStr output])
                      (fun _ => ret None)) st
  = failure_report w e output st.
Proof.
  unfold failure_report, bind, print, ret.
  destruct (can_print w [PStr "❌ JSON parse failed:"; PExn e]); [|reflexivity].
  cbn [console spawned clock_reads].
  destruct (can_print w [PStr "Raw text:"; PStr output]); [|reflexivity].
  cbn [console spawned clock_reads]. now rewrite <- app_assoc.
Qed.

Lemma parse_tool_call_invalid (w : world) (output j : string) (data : json)
      (e : exn) (st : state) :
  extract_first_json output = Ok (Some j) ->
  str_truthy j = true ->
  json_loads j = Ok data ->
  ToolCall_unpack data = Raise e ->
  parse_tool_call w output st = failure_report w e output st.
Proof.
  intros He Ht Hj Hc.
  pose proof (ToolCall_unpack_safe data) as Hs. rewrite Hc in Hs. simpl in Hs.
  rewrite <- handler_is_failure_report.
  unfold parse_tool_call, bind at 1, lift, try_catch.
  rewrite He, Ht. cbn [negb]. unfold bind at 1 2.
  now rewrite Hj, Hc, Hs.
Qed.

Lemma parse_tool_call_undecodable (w : world) (output j : string) (e : exn)
      (st : state) :
  extract_first_json output = Ok (Some j) ->
  str_truthy j = true ->
  json_loads j = Raise e ->
  parse_tool_call w output st = failure_report w e output st.
Proof.
  intros He Ht Hj.
  pose proof (json_loads_safe j) as Hs. rewrite Hj in Hs. simpl in Hs.
  rewrite <- handler_is_failure_report.
  unfold parse_tool_call, bind at 1, lift, try_catch.
  rewrite He, Ht. cbn [negb]. unfold bind at 1.
  now rewrite Hj, Hs.
Qed.

Lemma failure_report_printed (w : world) (e : exn) (output : string) (st : state) :
  can_print w [PStr "❌ JSON parse failed:"; PExn e] = true ->
  can_print w [PStr "Raw text:"; PStr output] = true ->
  failure_report w e output st
  = (Ok None, printed st [ [PStr "❌ JSON parse failed:"; PExn e];
                           [PStr "Raw text:"; PStr output] ]).
Proof.
  intros H1 H2. unfold failure_report. now rewrite H1, H2.
Qed.

(** A failure report ends with no call or with UnicodeEncodeError, and only
    adds lines to the console. *)
Lemma failure_report_outcome (w : world) (e : exn) (output : string) (st : state) :
  exists lines,
    failure_report w e output st = (Ok None, printed st lines) \/
    failure_report w e output st = (Raise UnicodeEncodeError, printed st lines).
Proof.
  unfold failure_report.
  destruct (can_print w [PStr "❌ JSON parse failed:"; PExn e]).
  - destruct (can_print w [PStr "Raw text:"; PStr output]).
    + eexists. left. reflexivity.
    + exists [ [PStr "❌ JSON parse failed:"; PExn e] ]. right. reflexivity.
  - exists []. right. now rewrite printed_nil.
Qed.

(** A text that opens with a brace is not empty. *)
Lemma json_loads_nonempty (j : string) (data : json) :
  json_loads j = Ok data -> str_truthy j = true.
Proof.
  destruct j; [discriminate | reflexivity].
Qed.

(** Every way through [parse_tool_call]: a call read off a decoded object
    and nothing printed; no call and nothing printed, when the extractor
    gives nothing to decode; or the failure report for the exception that
    the decoder or the model constructor raised. *)
Lemma parse_tool_call_cases (w : world) (output : string) (st : state) :
  (exists call j kwargs,
      parse_tool_call w output st = (Ok (Some call), st) /\
      extract_first_json output = Ok (Some j) /\
      json_loads j = Ok (JObject kwargs) /\
      dict_get "tool_name" kwargs = Some (JString (tool_name call)) /\
      dict_get "parameters" kwargs = Some (JObject (parameters call)))
  \/
  (parse_tool_call w output st = (Ok None, st) /\
   (extract_first_json output = Ok None \/
    extract_first_json output = Ok (Some "")))
  \/
  (exists j e,
      extract_first_json output = Ok (Some j) /\
      j <> "" /\
      (json_loads j = Raise e \/
       exists data, json_loads j = Ok data /\ ToolCall_unpack data = Raise e) /\
      parse_tool_call w output st = failure_report w e output st).
Proof.
  destruct (extract_never_raises output) as [[j|] He].
  - destruct (str_truthy j) eqn:Ht.
    + assert (Hne : j <> "") by (intros ->; discriminate).
      destruct (json_loads j) as [data|e] eqn:Hj.
      * destruct (ToolCall_unpack data) as [call|e] eqn:Hc.
        -- left. destruct data; try discriminate. simpl in Hc.
           destruct (ToolCall_init_inv _ _ Hc) as [Hn Hp].
           exists call, j, members.
           rewrite (parse_tool_call_valid w _ _ _ _ st He Ht Hj Hc). auto.
        -- right. right. exists j, e. repeat split; auto.
           ++ right. eauto.
           ++ now apply parse_tool_call_invalid with (j := j) (data := data).
      * right. right. exists j, e. repeat split; auto.
        now apply parse_tool_call_undecodable with (j := j).
    + right. left.
      assert (He' : extract_first_json output = Ok (Some ""))
        by (destruct j; [exact He | discriminate]).
      split; [apply parse_tool_call_no_json|]; now right.
  - right. left. split; [apply parse_tool_call_no_json|]; now left.
Qed.

(* ===================================================================== *)
(** * The model invoker *)
(* ===================================================================== *)

Lemma ollama_run_nonzero (w : world) (model prompt : string) (st : state)
      (rc : Z) (out err : string) :
  spawn w (spawned st) (ollama_cmd model) prompt = Exited rc out err ->
  rc <> 0 ->
  can_print w [PStr "Ollama error:"; PStr err] = true ->
  ollama_run w model prompt st
  = (Ok "", printed (after_spawn st) [ [PStr "Ollama error:"; PStr err] ]).
Proof.
  intros Hs Hrc Hp. apply Z.eqb_neq in Hrc.
  unfold ollama_run, try_catch, bind, subprocess_run.
  fold (ollama_cmd model). rewrite Hs, Hrc.
  cbn [is_CalledProcessError exn_stderr].
  now rewrite print_written.
Qed.

Lemma ollama_run_nonzero_refused (w : world) (model prompt : string) (st : state)
      (rc : Z) (out err : string) :
  spawn w (spawned st) (ollama_cmd model) prompt = Exited rc out err ->
  rc <> 0 ->
  can_print w [PStr "Ollama error:"; PStr err] = false ->
  ollama_run w model prompt st = (Raise UnicodeEncodeError, after_spawn st).
Proof.
  intros Hs Hrc Hp. apply Z.eqb_neq in Hrc.
  unfold ollama_run, try_catch, bind, subprocess_run.
  fold (ollama_cmd model). rewrite Hs, Hrc.
  cbn [is_CalledProcessError exn_stderr].
  now rewrite print_refused.
Qed.

Lemma ollama_run_zero (w : world) (model prompt : string) (st : state)
      (out err : string) :
  spawn w (spawned st) (ollama_cmd model) prompt = Exited 0 out err ->
  ollama_run w model prompt st = (Ok (strip out), after_spawn st).
Proof.
  intros Hs.
  unfold ollama_run, try_catch, bind, subprocess_run.
  fold (ollama_cmd model). now rewrite Hs.
Qed.

Lemma ollama_run_not_started (w : world) (model prompt : string) (st : state)
      (e : exn) :
  spawn w (spawned st) (ollama_cmd model) prompt = NotStarted e ->
  is_CalledProcessError e = false ->
  ollama_run w model prompt st = (Raise e, after_spawn st).
Proof.
  intros Hs He.
  unfold ollama_run, try_catch, bind, subprocess_run.
  fold (ollama_cmd model). now rewrite Hs, He.
Qed.

Lemma ollama_run_garbled (w : world) (model prompt : string) (st : state)
      (e : exn) :
  spawn w (spawned st) (ollama_cmd model) prompt = Garbled e ->
  is_CalledProcessError e = false ->
  ollama_run w model prompt st = (Raise e, after_spawn st).
Proof.
  intros Hs He.
  unfold ollama_run, try_catch, bind, subprocess_run.
  fold (ollama_cmd model). now rewrite Hs, He.
Qed.


(* ===================================================================== *)
(** * The scenario runner *)
(* ===================================================================== *)




Lemma for_each_next {A : Type} (x : A) (rest : list A) (body : A -> M unit)
      (st st' : state) :
  body x st = (Ok tt, st') ->
  for_each (x :: rest) body st = for_each rest body st'.
Proof.
  intros H. simpl. unfold bind. now rewrite H.
Qed.

Lemma is_ascii_app (a b : string) :
  is_ascii (a ++ b) = is_ascii a && is_ascii b.
Proof.
  unfold is_ascii. induction a as [|c a IH]; simpl; [reflexivity|].
  now rewrite IH, andb_assoc.
Qed.

(** The header of a scenario whose id is ASCII is written on every
    standard output. *)
Lemma header_can_print (w : world) (sid : string) :
  is_ascii sid = true ->
  can_print w [PStr (LF ++ "--- " ++ sid ++ " ---")] = true.
Proof.
  intros H. unfold can_print, ascii_line. cbn [forallb].
  rewrite !is_ascii_app, H. reflexivity.
Qed.

(* ===================================================================== *)
(** * Properties of the specification *)
(* ===================================================================== *)

(** ** Model invoker and scenario loop *)

(** C1, as the code has it.  When the model process starts, its captured
    streams decode as text and it exits with a nonzero status, and standard
    output takes the lines that are printed, [ollama_run] catches the
    failure: it prints the text of the process's error stream and returns
    the empty string.  The scenario then goes through its parse step, which
    finds no call, prints its failure line and the elapsed time, ends
    normally, and the loop goes on with the scenarios that remain. *)
Theorem nonzero_exit_recovered
        (w : world) (model sid user : string) (rest : list (string * string))
        (st : state) (rc : Z) (out err : string) :
  let prompt := PROMPT_HEAD ++ TOOL_DOC ++ PROMPT_MID
                ++ DELIM ++ user ++ DELIM ++ PROMPT_TAIL in
  rc <> 0 ->
  spawn w (spawned st) (ollama_cmd model) prompt = Exited rc out err ->
  can_print w [PStr (LF ++ "--- " ++ sid ++ " ---")] = true ->
  can_print w [PStr "Ollama error:"; PStr err] = true ->
  can_print w [PStr "❌ Failed to parse tool call."] = true ->
  ollama_run w model prompt st
  = (Ok "", printed (after_spawn st) [ [PStr "Ollama error:"; PStr err] ])
  /\
  exists st',
    run_scenario w model (sid, user) st = (Ok tt, st') /\
    console st'
    = (console st ++
       [ [PStr (LF ++ "--- " ++ sid ++ " ---")%string];
         [PStr "Ollama error:"; PStr err];
         [PStr "❌ Failed to parse tool call."];
         [PSeconds (time_time w (S (clock_reads st)) - time_time w (clock_reads st))] ])%list
    /\
    for_each ((sid, user) :: rest) (run_scenario w model) st
    = for_each rest (run_scenario w model) st'.
Proof.
  intros prompt Hrc Hs Hhdr Herr Hfail. split.
  - now apply ollama_run_nonzero with (rc := rc) (out := out).
  - assert (Hrun : exists st',
               run_scenario w model (sid, user) st = (Ok tt, st') /\
               console st'
               = (console st ++
                  [ [PStr (LF ++ "--- " ++ sid ++ " ---")%string];
                    [PStr "Ollama error:"; PStr err];
                    [PStr "❌ Failed to parse tool call."];
                    [PSeconds (time_time w (S (clock_reads st))
                               - time_time w (clock_reads st))] ])%list).
    { cbv [run_scenario bind lift time_now].
      rewrite (print_written w _ st Hhdr).
      rewrite build_prompt_eq. fold prompt.
      erewrite ollama_run_nonzero; [| exact Hs | exact Hrc | exact Herr].
      rewrite parse_tool_call_no_json by (left; reflexivity).
      rewrite (print_written w _ _ Hfail).
      rewrite print_written by reflexivity.
      eexists. split; [reflexivity|].
      simpl. now rewrite <- !app_assoc. }
    destruct Hrun as (st' & Hrun & Hc).
    exists st'. repeat split; auto using for_each_next.
Qed.

Lemma nonzero_exit_recovered_witness :
  exists st',
    run_scenario ollama_failing "llama3"
                 ("S1_simple_ecu", "Create an ECU with Cortex-M4 and 2 CAN controllers.")
                 init_state = (Ok tt, st') /\
    console st'
    = [ [PStr (LF ++ "--- S1_simple_ecu ---")];
        [PStr "Ollama error:"; PStr "Error: model not found"];
        [PStr "❌ Failed to parse tool call."];
        [PSeconds 1] ].
Proof.
  destruct (nonzero_exit_recovered
              ollama_failing "llama3" "S1_simple_ecu"
              "Create an ECU with Cortex-M4 and 2 CAN controllers."
              [] init_state 1 "" "Error: model not found")
    as (_ & st' & Hrun & Hc & _).
  - discriminate.
  - reflexivity.
  - reflexivity.
  - reflexivity.
  - reflexivity.
  - exists st'. split; [exact Hrun | exact Hc].
Defined.

(** C1 as stated fails where the process cannot be started: the exception
    raised then is no CalledProcessError, the handler of [ollama_run] does
    not apply, and the exception leaves [ollama_run] and the scenario. *)
Lemma not_started_propagates :
  ollama_run ollama_absent "llama3" "prompt" init_state
  = (Raise (FileNotFoundError "ollama"), after_spawn init_state)
  /\
  fst (run_scenario ollama_absent "llama3"
         ("S1_simple_ecu", "Create an ECU with Cortex-M4 and 2 CAN controllers.")
         init_state)
  = Raise (FileNotFoundError "ollama").
Proof.
  split; vm_compute; reflexivity.
Qed.




(** ** JSON extractor *)

(** C3, as the code has it.  The extractor never raises.  On a text with no
    opening brace it returns None.  On a text whose last closing brace
    stands after its first opening brace it returns the part from the one
    through the other, both included.  On a text with an opening brace and
    no closing brace after the first opening one it returns the empty
    string. *)
Theorem extract_first_json_spec (text : string) :
  (exists r, extract_first_json text = Ok r) /\
  (find_char "{" text = None -> extract_first_json text = Ok None) /\
  (forall pre mid post,
      text = pre ++ "{" ++ mid ++ "}" ++ post ->
      find_char "{" pre = None ->
      find_char "}" post = None ->
      extract_first_json text = Ok (Some ("{" ++ mid ++ "}"))) /\
  (forall pre rest,
      text = pre ++ "{" ++ rest ->
      find_char "{" pre = None ->
      find_char "}" rest = None ->
      extract_first_json text = Ok (Some "")).
Proof.
  split; [apply extract_never_raises|].
  split; [apply extract_no_open_brace|].
  split.
  - intros pre mid post -> Hpre Hpost. now apply extract_span.
  - intros pre rest -> Hpre Hrest.
    apply extract_crossed with (i := String.length pre).
    + now apply (find_char_after "{" pre rest).
    + destruct (rfind_char "}" (pre ++ "{" ++ rest)) as [j|] eqn:Hj; [right|now left].
      exists j. split; [reflexivity|].
      apply (rfind_char_in_prefix "}" pre ("{" ++ rest) j); [|exact Hj].
      simpl. apply (rfind_none_find_none "}") in Hrest. now rewrite Hrest.
Qed.

Lemma extract_first_json_spec_witness :
  extract_first_json "Sure: {a}b} done" = Ok (Some "{a}b}") /\
  extract_first_json "I think the answer is CAN." = Ok None /\
  extract_first_json "} then {" = Ok (Some "").
Proof.
  split; [|split].
  - destruct (extract_first_json_spec "Sure: {a}b} done") as (_ & _ & H & _).
    apply (H "Sure: " "a}b" " done"); reflexivity.
  - destruct (extract_first_json_spec "I think the answer is CAN.") as (_ & H & _).
    apply H. reflexivity.
  - destruct (extract_first_json_spec "} then {") as (_ & _ & _ & H).
    apply (H "} then " ""); reflexivity.
Defined.

(** C3 as stated fails on a text that has an opening brace and no closing
    brace after it: what the extractor returns there is the empty string,
    which is no part of the text running from an opening to a closing
    brace. *)
Lemma extract_first_json_crossed_counterexample :
  find_char "{" "} then {" <> None /\
  extract_first_json "} then {" = Ok (Some "") /\
  ~ brace_span "} then {" "".
Proof.
  split; [discriminate|]. split; [reflexivity|].
  intros (pre & mid & post & _ & Hr & _). discriminate Hr.
Qed.

(** C7.  A text that opens with a brace and closes with a brace is returned
    by the extractor as it is. *)
Theorem extract_first_json_idempotent (mid : string) :
  extract_first_json ("{" ++ mid ++ "}") = Ok (Some ("{" ++ mid ++ "}")).
Proof.
  exact (extract_span "" mid "" eq_refl eq_refl).
Qed.

(** C9.  On a text that has an opening brace and either no closing brace or
    its last closing brace before its first opening one, the extractor
    returns the empty string, neither a braced part nor None, and
    [parse_tool_call] takes that for a failure: it returns no call and
    prints nothing. *)
Theorem crossed_braces_give_no_call
        (w : world) (text : string) (i : nat) (st : state) :
  find_char "{" text = Some i ->
  (rfind_char "}" text = None \/
   exists j, rfind_char "}" text = Some j /\ (j < i)%nat) ->
  extract_first_json text = Ok (Some "") /\
  parse_tool_call w text st = (Ok None, st).
Proof.
  intros Hi Hj.
  pose proof (extract_crossed text i Hi Hj) as He.
  split; [exact He|].
  apply parse_tool_call_no_json. now right.
Qed.

Lemma crossed_braces_give_no_call_witness :
  (extract_first_json "{unfinished" = Ok (Some "") /\
   parse_tool_call (ascii_console "") "{unfinished" init_state
   = (Ok None, init_state)) /\
  (extract_first_json "} then {" = Ok (Some "") /\
   parse_tool_call (ascii_console "") "} then {" init_state
   = (Ok None, init_state)).
Proof.
  split.
  - apply (crossed_braces_give_no_call (ascii_console "") "{unfinished" 0 init_state).
    + reflexivity.
    + left. reflexivity.
  - apply (crossed_braces_give_no_call (ascii_console "") "} then {" 7 init_state).
    + reflexivity.
    + right. exists O. split; [reflexivity | lia].
Defined.

(** ** Schema validator *)

(** C4, as the code has it.  When the text cut out of the output decodes to
    an object that has no [parameters] member, as the text
    [{"tool_name": "add_ecu"}] does, model construction raises a validation
    error that reports the field as missing, and [parse_tool_call] never
    returns a call: no empty mapping is put in the field's place.  Where
    standard output takes the two lines of the failure report,
    [parse_tool_call] prints them and returns no call. *)
Theorem missing_parameters_rejected
        (w : world) (output j : string) (kwargs : dict) (st : state) :
  extract_first_json output = Ok (Some j) ->
  json_loads j = Ok (JObject kwargs) ->
  dict_get "parameters" kwargs = None ->
  exists errors,
    In ("parameters", "missing") errors /\
    ToolCall_unpack (JObject kwargs) = Raise (ValidationError errors) /\
    (forall call st', parse_tool_call w output st <> (Ok (Some call), st')) /\
    (can_print w [PStr "❌ JSON parse failed:"; PExn (ValidationError errors)] = true ->
     can_print w [PStr "Raw text:"; PStr output] = true ->
     parse_tool_call w output st
     = (Ok None, printed st [ [PStr "❌ JSON parse failed:";
                               PExn (ValidationError errors)];
                              [PStr "Raw text:"; PStr output] ])).
Proof.
  intros He Hj Hp.
  destruct (ToolCall_init_missing_parameters kwargs Hp) as (errors & Hinit & Hin).
  assert (Hparse : parse_tool_call w output st
                   = failure_report w (ValidationError errors) output st)
    by (apply parse_tool_call_invalid with (j := j) (data := JObject kwargs);
        eauto using json_loads_nonempty).
  exists errors. split; [exact Hin|]. split; [exact Hinit|]. split.
  - intros call st' H. rewrite Hparse in H.
    destruct (failure_report_outcome w (ValidationError errors) output st)
      as (lines & [Hf | Hf]); rewrite Hf in H; discriminate H.
  - intros H1 H2. rewrite Hparse. now apply failure_report_printed.
Qed.

Lemma missing_parameters_rejected_witness :
  exists errors,
    In ("parameters", "missing") errors /\
    ToolCall_unpack (JObject [("tool_name", JString "add_ecu")])
    = Raise (ValidationError errors) /\
    (forall call st',
        parse_tool_call ollama_failing (quoted "{'tool_name': 'add_ecu'}") init_state
        <> (Ok (Some call), st')) /\
    (can_print ollama_failing
               [PStr "❌ JSON parse failed:"; PExn (ValidationError errors)] = true ->
     can_print ollama_failing
               [PStr "Raw text:"; PStr (quoted "{'tool_name': 'add_ecu'}")] = true ->
     parse_tool_call ollama_failing (quoted "{'tool_name': 'add_ecu'}") init_state
     = (Ok None,
        printed init_state
                [ [PStr "❌ JSON parse failed:"; PExn (ValidationError errors)];
                  [PStr "Raw text:"; PStr (quoted "{'tool_name': 'add_ecu'}")] ])).
Proof.
  apply (missing_parameters_rejected
           ollama_failing
           (quoted "{'tool_name': 'add_ecu'}")
           (quoted "{'tool_name': 'add_ecu'}")
           [("tool_name", JString "add_ecu")] init_state);
    reflexivity.
Defined.

(** C4 as stated fails on a standard output that cannot encode the mark
    that opens the failure report: on the very text
    [{"tool_name": "add_ecu"}] the first [print] of the handler raises
    UnicodeEncodeError, which leaves [parse_tool_call] in place of the
    signal for no call. *)
Lemma missing_parameters_raises_on_ascii_console :
  parse_tool_call (ascii_console "") (quoted "{'tool_name': 'add_ecu'}") init_state
  = (Raise UnicodeEncodeError, init_state).
Proof.
  vm_compute. reflexivity.
Qed.

(** C5.  When the text cut out of the output decodes to an object with a
    string under [tool_name] and an object under [parameters], the
    validator yields the call made of those two, whatever other members the
    object has. *)
Theorem extra_fields_ignored
        (w : world) (output j name : string) (kwargs params : dict) (st : state) :
  extract_first_json output = Ok (Some j) ->
  json_loads j = Ok (JObject kwargs) ->
  dict_get "tool_name" kwargs = Some (JString name) ->
  dict_get "parameters" kwargs = Some (JObject params) ->
  ToolCall_unpack (JObject kwargs)
  = Ok {| tool_name := name; parameters := params |} /\
  parse_tool_call w output st
  = (Ok (Some {| tool_name := name; parameters := params |}), st).
Proof.
  intros He Hj Hn Hp.
  pose proof (ToolCall_init_ok kwargs params name Hn Hp) as Hinit.
  split; [exact Hinit|].
  apply parse_tool_call_valid with (j := j) (data := JObject kwargs);
    eauto using json_loads_nonempty.
Qed.

Lemma extra_fields_ignored_witness :
  parse_tool_call
    (ascii_console "")
    (quoted "{'tool_name':'add_ecu','confidence':0.9,'parameters':{'id':'ECU-1'},'notes':null}")
    init_state
  = (Ok (Some {| tool_name := "add_ecu";
                 parameters := [("id", JString "ECU-1")] |}),
     init_state).
Proof.
  apply (extra_fields_ignored
           (ascii_console "")
           (quoted "{'tool_name':'add_ecu','confidence':0.9,'parameters':{'id':'ECU-1'},'notes':null}")
           (quoted "{'tool_name':'add_ecu','confidence':0.9,'parameters':{'id':'ECU-1'},'notes':null}")
           "add_ecu"
           [("tool_name", JString "add_ecu"); ("confidence", JFloat "0.9");
            ("parameters", JObject [("id", JString "ECU-1")]); ("notes", JNull)]
           [("id", JString "ECU-1")] init_state);
    reflexivity.
Defined.

(** C6.  On the text
    [{"tool_name":"add_protocol","parameters":{"protocol":"CAN"}}] the
    validator yields the call named [add_protocol] whose parameters map
    [protocol] to the string [CAN], and prints nothing. *)
Theorem add_protocol_call_parsed (w : world) (st : state) :
  parse_tool_call
    w (quoted "{'tool_name':'add_protocol','parameters':{'protocol':'CAN'}}") st
  = (Ok (Some {| tool_name := "add_protocol";
                 parameters := [("protocol", JString "CAN")] |}),
     st).
Proof.
  apply parse_tool_call_valid
    with (j := quoted "{'tool_name':'add_protocol','parameters':{'protocol':'CAN'}}")
         (data := JObject [("tool_name", JString "add_protocol");
                           ("parameters", JObject [("protocol", JString "CAN")])]);
    reflexivity.
Qed.




(** ** Prompt builder *)

(** C8.  For every tool documentation and every instruction, with or
    without delimiters inside, building the prompt raises nothing and gives
    the template's text with the documentation in its place and the
    instruction, unchanged, between the two delimiters. *)
Theorem prompt_holds_both_verbatim (tool_doc user_input : string) :
  build_prompt tool_doc user_input
  = Ok (PROMPT_HEAD ++ tool_doc ++ PROMPT_MID
        ++ DELIM ++ user_input ++ DELIM ++ PROMPT_TAIL).
Proof.
  apply build_prompt_eq.
Qed.

(* ===================================================================== *)
(** * Further properties of the extractor *)
(* ===================================================================== *)

Section MoreStringFacts.

Variable c : ascii.

Lemma find_char_app_none (a b : string) :
  find_char c (a ++ b) = None <-> find_char c a = None /\ find_char c b = None.
Proof.
  induction a as [|x a IH]; simpl.
  - tauto.
  - destruct (Ascii.eqb x c).
    + split; [discriminate | intros [H _]; discriminate].
    + destruct (find_char c (a ++ b)), (find_char c a); simpl;
        split; try discriminate; try tauto;
        try (intros [H _]; discriminate);
        try (intros _; split; [discriminate || reflexivity | tauto]).
      * intros [_ Hb]. destruct IH as [_ IH]. discriminate (IH (conj eq_refl Hb)).
      * intros _. destruct IH as [IH _]. destruct (IH eq_refl). discriminate.
Qed.

(** Where the last occurrence is, when there is one. *)
Lemma rfind_char_split (s : string) (j : nat) :
  rfind_char c s = Some j ->
  exists a b,
    s = a ++ String c b /\ find_char c b = None /\ String.length a = j.
Proof.
  revert j. induction s as [|x s IH]; simpl; [discriminate|].
  intros j. destruct (rfind_char c s) as [k|] eqn:Hk.
  - intros [= <-]. destruct (IH k eq_refl) as (a & b & -> & Hb & Hl).
    exists (String x a), b. simpl. now rewrite Hl.
  - destruct (Ascii.eqb_spec x c) as [->|]; [|discriminate].
    intros [= <-]. exists "", s. simpl.
    repeat split. now apply rfind_none_find_none.
Qed.

(** A string either holds no [c], or splits around its last one. *)
Lemma last_occurrence (s : string) :
  find_char c s = None \/
  exists a b, s = a ++ String c b /\ find_char c b = None.
Proof.
  destruct (rfind_char c s) as [j|] eqn:Hj.
  - right. destruct (rfind_char_split s j Hj) as (a & b & H1 & H2 & _). eauto.
  - left. now apply rfind_none_find_none.
Qed.

(** A string either holds no [c], or splits around its first one. *)
Lemma first_occurrence (s : string) :
  find_char c s = None \/
  exists a b, s = a ++ String c b /\ find_char c a = None.
Proof.
  destruct (find_char c s) as [i|] eqn:Hi.
  - right. destruct (find_char_split c s i Hi) as (a & b & H1 & H2 & _). eauto.
  - now left.
Qed.

End MoreStringFacts.

Lemma extract_unclosed (pre rest : string) :
  find_char "{" pre = None ->
  find_char "}" rest = None ->
  extract_first_json (pre ++ "{" ++ rest) = Ok (Some "").
Proof.
  intros Hpre Hrest.
  apply extract_crossed with (i := String.length pre).
  - now apply (find_char_after "{" pre rest).
  - destruct (rfind_char "}" (pre ++ "{" ++ rest)) as [j|] eqn:Hj; [right|now left].
    exists j. split; [reflexivity|].
    apply (rfind_char_in_prefix "}" pre ("{" ++ rest) j); [|exact Hj].
    simpl. apply (rfind_none_find_none "}") in Hrest. now rewrite Hrest.
Qed.

(** Every text falls under one of the three cases of the extractor. *)
Lemma text_shape (text : string) :
  find_char "{" text = None \/
  (exists pre mid post,
      text = pre ++ "{" ++ mid ++ "}" ++ post /\
      find_char "{" pre = None /\ find_char "}" post = None) \/
  (exists pre rest,
      text = pre ++ "{" ++ rest /\
      find_char "{" pre = None /\ find_char "}" rest = None).
Proof.
  destruct (first_occurrence "{" text) as [H | (pre & rest & -> & Hpre)];
    [now left | right].
  destruct (last_occurrence "}" rest) as [H | (mid & post & -> & Hpost)].
  - right. now exists pre, rest.
  - left. now exists pre, mid, post.
Qed.

(** X1.  What the extractor returns is the empty string or the part of the
    text from its first opening brace through its last closing brace: it
    never returns anything else, in particular nothing that is not a
    contiguous part of the text. *)
Theorem extract_result_shape (text r : string) :
  extract_first_json text = Ok (Some r) ->
  r = "" \/ brace_span text r.
Proof.
  intros He.
  destruct (text_shape text)
    as [H | [(pre & mid & post & -> & Hpre & Hpost) | (pre & rest & -> & Hpre & Hrest)]].
  - rewrite (extract_no_open_brace _ H) in He. discriminate.
  - rewrite (extract_span _ _ _ Hpre Hpost) in He. injection He as <-.
    right. exists pre, mid, post. repeat split; auto.
    simpl. now rewrite app_assoc_str.
  - rewrite (extract_unclosed _ _ Hpre Hrest) in He. injection He as <-.
    now left.
Qed.

Lemma extract_result_shape_witness :
  "{a}b}" = "" \/ brace_span "Sure: {a}b} done" "{a}b}".
Proof.
  apply (extract_result_shape "Sure: {a}b} done" "{a}b}"). reflexivity.
Defined.

(** X2.  The extractor returns None exactly on the texts that hold no
    opening brace. *)
Theorem extract_none_iff (text : string) :
  extract_first_json text = Ok None <-> find_char "{" text = None.
Proof.
  split; [|apply extract_no_open_brace].
  unfold extract_first_json, str_index.
  destruct (find_char "{" text); [discriminate | reflexivity].
Qed.

(** X3.  Extracting from a nonempty result of the extractor gives that
    result again. *)
Theorem extract_twice (text r : string) :
  extract_first_json text = Ok (Some r) ->
  r <> "" ->
  extract_first_json r = Ok (Some r).
Proof.
  intros He Hr.
  destruct (extract_result_shape text r He)
    as [-> | (pre & mid & post & _ & -> & _)]; [contradiction|].
  exact (extract_span "" mid "" eq_refl eq_refl).
Qed.

Lemma extract_twice_witness :
  extract_first_json "{a}b}" = Ok (Some "{a}b}").
Proof.
  apply (extract_twice "Sure: {a}b} done" "{a}b}").
  - reflexivity.
  - discriminate.
Defined.

(** X4.  Text put before and after does not change what is extracted, as
    long as the text before holds no opening brace, the text after no
    closing brace, and the text between them has an opening brace. *)
Theorem extract_ignores_surroundings (pre text post : string) :
  find_char "{" pre = None ->
  find_char "}" post = None ->
  find_char "{" text <> None ->
  extract_first_json (pre ++ text ++ post) = extract_first_json text.
Proof.
  intros Hpre Hpost Htext.
  destruct (text_shape text)
    as [H | [(p & mid & q & -> & Hp & Hq) | (p & rest & -> & Hp & Hrest)]].
  - contradiction.
  - rewrite (extract_span p mid q Hp Hq).
    replace (pre ++ (p ++ "{" ++ mid ++ "}" ++ q) ++ post)
      with ((pre ++ p) ++ "{" ++ mid ++ "}" ++ (q ++ post))
      by (now rewrite !app_assoc_str).
    apply extract_span.
    + now apply find_char_app_none.
    + now apply find_char_app_none.
  - rewrite (extract_unclosed p rest Hp Hrest).
    replace (pre ++ (p ++ "{" ++ rest) ++ post)
      with ((pre ++ p) ++ "{" ++ (rest ++ post))
      by (now rewrite !app_assoc_str).
    apply extract_unclosed.
    + now apply find_char_app_none.
    + now apply find_char_app_none.
Qed.

Lemma extract_ignores_surroundings_witness :
  extract_first_json ("Here you go: " ++ "{a}b}" ++ " (done)")
  = extract_first_json "{a}b}".
Proof.
  apply (extract_ignores_surroundings "Here you go: " "{a}b}" " (done)").
  - reflexivity.
  - reflexivity.
  - discriminate.
Defined.

(* ===================================================================== *)
(** * Further properties of the validator *)
(* ===================================================================== *)

(** Walks through the tests of a decoder body in the hypothesis [H]. *)
Ltac split_decoder H :=
  repeat match type of H with
         | rbind ?r _ = Ok _ =>
             let E := fresh "E" in
             destruct r as [[? ?]|?] eqn:E; cbn [rbind] in H; [|discriminate H]
         | context [match ?x with _ => _ end] =>
             destruct x eqn:?; try discriminate H
         end.

Lemma object_members_gives_object (fuel : nat) :
  forall d s pairs v rest,
    object_members fuel d s pairs = Ok (v, rest) ->
    exists kwargs, v = JObject kwargs.
Proof.
  induction fuel as [|fuel IH]; intros d s pairs v rest H.
  - discriminate H.
  - cbn [object_members] in H.
    split_decoder H;
      solve [ injection H as <- _; eauto | eapply IH; exact H ].
Qed.

Lemma JSONObject_gives_object (fuel d : nat) (s rest : string) (v : json) :
  JSONObject fuel d s = Ok (v, rest) -> exists kwargs, v = JObject kwargs.
Proof.
  destruct fuel as [|fuel]; intros H; [discriminate H|].
  cbn [JSONObject] in H.
  split_decoder H;
    solve [ injection H as <- _; eauto
          | eapply object_members_gives_object; exact H ].
Qed.

(** A text that opens with a brace decodes, if at all, to an object. *)
Lemma json_loads_braced (rest : string) (data : json) :
  json_loads (String "{" rest) = Ok data -> exists kwargs, data = JObject kwargs.
Proof.
  unfold json_loads.
  change (String.prefix BOM (String "{" rest)) with false.
  cbn [skip_ws is_ws Ascii.eqb Bool.eqb orb].
  remember (3 * String.length (String "{" rest) + 3)%nat as fuel eqn:Hf.
  destruct fuel as [|fuel]; [cbn in Hf; lia|].
  unfold recursion_limit.
  cbn [scan_once Ascii.eqb Bool.eqb dquote].
  intros H.
  destruct (JSONObject fuel 999 rest) as [[v r]|e] eqn:Ho; [|discriminate H].
  cbn [rbind] in H.
  destruct (skip_ws r); [|discriminate H].
  injection H as <-. eapply JSONObject_gives_object; exact Ho.
Qed.

(** X5.  What [parse_tool_call] hands to the model constructor is always an
    object: the text the extractor gives opens with a brace, and such a
    text decodes to nothing but an object.  Unpacking a value that is no
    mapping never happens. *)
Theorem extracted_text_decodes_to_object (output j : string) (data : json) :
  extract_first_json output = Ok (Some j) ->
  json_loads j = Ok data ->
  exists kwargs, data = JObject kwargs.
Proof.
  intros He Hj.
  destruct (extract_result_shape output j He)
    as [-> | (pre & mid & post & _ & -> & _)]; [discriminate Hj|].
  exact (json_loads_braced _ _ Hj).
Qed.

Lemma extracted_text_decodes_to_object_witness :
  exists kwargs,
    JObject [("tool_name", JString "add_ecu")] = JObject kwargs.
Proof.
  apply (extracted_text_decodes_to_object
           (quoted "[{'tool_name': 'add_ecu'}]")
           (quoted "{'tool_name': 'add_ecu'}")
           (JObject [("tool_name", JString "add_ecu")]));
    reflexivity.
Defined.

(** X6.  [parse_tool_call] ends in one of four ways.  It prints nothing
    and returns a call or None.  Or the decoder or the model constructor
    raised an exception, and then: it prints two lines, that exception and
    the whole output it was given (not only the part the extractor cut
    out), and returns None; or standard output does not take the second
    line, and UnicodeEncodeError is raised after the first; or it does not
    take the first, and UnicodeEncodeError is raised with nothing
    printed. *)
Theorem parse_tool_call_report (w : world) (output : string) (st : state) :
  (exists r, parse_tool_call w output st = (Ok r, st)) \/
  (exists j e,
      extract_first_json output = Ok (Some j) /\
      (json_loads j = Raise e \/
       exists kwargs, json_loads j = Ok (JObject kwargs)
                      /\ ToolCall_init kwargs = Raise e) /\
      let line1 := [PStr "❌ JSON parse failed:"; PExn e] in
      let line2 := [PStr "Raw text:"; PStr output] in
      (can_print w line1 = true /\ can_print w line2 = true /\
       parse_tool_call w output st = (Ok None, printed st [line1; line2]))
      \/
      (can_print w line1 = true /\ can_print w line2 = false /\
       parse_tool_call w output st
       = (Raise UnicodeEncodeError, printed st [line1]))
      \/
      (can_print w line1 = false /\
       parse_tool_call w output st = (Raise UnicodeEncodeError, st))).
Proof.
  destruct (parse_tool_call_cases w output st)
    as [(call & j & kwargs & H & _) | [(H & _) | (j & e & He & _ & Hwhy & H)]].
  - left. now exists (Some call).
  - left. now exists None.
  - right. exists j, e. split; [exact He|]. split.
    + destruct Hwhy as [Hj | (data & Hj & Hc)]; [now left | right].
      destruct (extracted_text_decodes_to_object _ _ _ He Hj) as [kwargs ->].
      exists kwargs. auto.
    + cbv zeta. rewrite H. unfold failure_report.
      destruct (can_print w [PStr "❌ JSON parse failed:"; PExn e]);
        [|right; right; auto].
      destruct (can_print w [PStr "Raw text:"; PStr output]);
        [left | right; left]; auto.
Qed.

(** X7.  Prose or markup around a valid object does no harm: when the
    output is an object text with, before it, text that holds no opening
    brace and, after it, text that holds no closing brace, and the object
    text decodes to an object with a string [tool_name] and an object
    [parameters], the validator returns that call. *)
Theorem surrounded_object_parsed
        (w : world) (pre mid post name : string) (kwargs params : dict)
        (st : state) :
  find_char "{" pre = None ->
  find_char "}" post = None ->
  json_loads ("{" ++ mid ++ "}") = Ok (JObject kwargs) ->
  dict_get "tool_name" kwargs = Some (JString name) ->
  dict_get "parameters" kwargs = Some (JObject params) ->
  parse_tool_call w (pre ++ "{" ++ mid ++ "}" ++ post) st
  = (Ok (Some {| tool_name := name; parameters := params |}), st).
Proof.
  intros Hpre Hpost Hj Hn Hp.
  apply parse_tool_call_valid
    with (j := "{" ++ mid ++ "}") (data := JObject kwargs).
  - now apply extract_span.
  - reflexivity.
  - exact Hj.
  - now apply ToolCall_init_ok.
Qed.

Lemma surrounded_object_parsed_witness :
  parse_tool_call
    (ascii_console "")
    ("Here is the call:
```json
" ++ "{" ++ quoted "'tool_name':'add_protocol','parameters':{'protocol':'CAN'}" ++ "}" ++ "
```
Let me know if you need more.")
    init_state
  = (Ok (Some {| tool_name := "add_protocol";
                 parameters := [("protocol", JString "CAN")] |}),
     init_state).
Proof.
  apply (surrounded_object_parsed
           (ascii_console "")
           _ (quoted "'tool_name':'add_protocol','parameters':{'protocol':'CAN'}") _
           "add_protocol"
           [("tool_name", JString "add_protocol");
            ("parameters", JObject [("protocol", JString "CAN")])]
           [("protocol", JString "CAN")] init_state);
    reflexivity.
Defined.

(* ===================================================================== *)
(** * Further properties of the model invoker *)
(* ===================================================================== *)

Lemma lstrip_no_leading_space (s : string) : no_leading_space (lstrip s).
Proof.
  induction s as [|x s IH]; simpl; [exact I|].
  destruct (is_space x) eqn:Hx; [exact IH | exact Hx].
Qed.

Lemma lstrip_fixed (s : string) : no_leading_space s -> lstrip s = s.
Proof.
  destruct s as [|x s]; simpl; [reflexivity|]. now intros ->.
Qed.

Lemma rstrip_no_leading_space (s : string) :
  no_leading_space s -> no_leading_space (rstrip s).
Proof.
  destruct s as [|x s]; simpl; [exact id|].
  intros Hx. destruct (rstrip s); [rewrite Hx|]; exact Hx.
Qed.

Lemma rstrip_rstrip (s : string) : rstrip (rstrip s) = rstrip s.
Proof.
  induction s as [|x s IH]; simpl; [reflexivity|].
  destruct (rstrip s) as [|y t] eqn:Hr.
  - destruct (is_space x) eqn:Hx; simpl; [reflexivity | now rewrite Hx].
  - change (rstrip (String x (String y t)))
      with (match rstrip (String y t) with
            | "" => if is_space x then "" else String x ""
            | String a u => String x (String a u)
            end).
    now rewrite IH.
Qed.

Lemma strip_strip (s : string) : strip (strip s) = strip s.
Proof.
  unfold strip.
  rewrite (lstrip_fixed (rstrip (lstrip s)))
    by apply rstrip_no_leading_space, lstrip_no_leading_space.
  apply rstrip_rstrip.
Qed.

(** X8.  Whatever [ollama_run] returns has no whitespace at either end:
    it is the stripped output of a process that exited with status 0, or
    the empty string. *)
Theorem ollama_run_result_stripped
        (w : world) (model prompt out : string) (st st' : state) :
  ollama_run w model prompt st = (Ok out, st') ->
  strip out = out /\ no_leading_space out.
Proof.
  intros H.
  assert (Hhandler : forall e s0,
             bind (print w [PStr "Ollama error:"; PStr (exn_stderr e)])
                  (fun _ => ret "") s0 = (Ok out, st') ->
             out = "").
  { intros e s0. unfold bind, print, ret.
    destruct (can_print w [PStr "Ollama error:"; PStr (exn_stderr e)]);
      [now intros [= <- _] | discriminate]. }
  unfold ollama_run, try_catch, bind at 1, subprocess_run in H.
  destruct (spawn w (spawned st) ["ollama"; "run"; model] prompt)
    as [rc so se|e|e].
  - destruct (rc =? 0).
    + cbn in H. injection H as <- _.
      split; [apply strip_strip|].
      apply rstrip_no_leading_space, lstrip_no_leading_space.
    + cbn [is_CalledProcessError] in H. apply Hhandler in H. subst out.
      split; [reflexivity | exact I].
  - destruct (is_CalledProcessError e); [|discriminate H].
    apply Hhandler in H. subst out. split; [reflexivity | exact I].
  - destruct (is_CalledProcessError e); [|discriminate H].
    apply Hhandler in H. subst out. split; [reflexivity | exact I].
Qed.

Lemma ollama_run_result_stripped_witness :
  strip "{}" = "{}" /\ no_leading_space "{}".
Proof.
  apply (ollama_run_result_stripped
           (ollama_answering "  {}
") "llama3" "prompt" "{}" init_state (after_spawn init_state)).
  reflexivity.
Defined.

(** X9.  When the exception of a process that cannot be started or read
    is no CalledProcessError, [ollama_run] ends normally in these cases and
    no others: the process ran to its end with streams that decode as text,
    and either it exited with status 0, or standard output takes the line
    that reports its error stream.  A nonzero status alone never makes
    [ollama_run] raise. *)
Theorem ollama_run_returns_iff
        (w : world) (model prompt : string) (st : state) :
  (forall e,
      spawn w (spawned st) (ollama_cmd model) prompt = NotStarted e \/
      spawn w (spawned st) (ollama_cmd model) prompt = Garbled e ->
      is_CalledProcessError e = false) ->
  ((exists out st', ollama_run w model prompt st = (Ok out, st'))
   <->
   (exists rc out err,
       spawn w (spawned st) (ollama_cmd model) prompt = Exited rc out err /\
       (rc = 0 \/ can_print w [PStr "Ollama error:"; PStr err] = true))).
Proof.
  intros Hexn.
  destruct (spawn w (spawned st) (ollama_cmd model) prompt)
    as [rc so se|e|e] eqn:Hs.
  - destruct (Z.eq_dec rc 0) as [->|Hrc].
    + rewrite (ollama_run_zero _ _ _ _ _ _ Hs). split.
      * intros _. exists 0, so, se. auto.
      * intros _. eauto.
    + destruct (can_print w [PStr "Ollama error:"; PStr se]) eqn:Hp.
      * rewrite (ollama_run_nonzero _ _ _ _ _ _ _ Hs Hrc Hp). split.
        -- intros _. exists rc, so, se. auto.
        -- intros _. eauto.
      * rewrite (ollama_run_nonzero_refused _ _ _ _ _ _ _ Hs Hrc Hp). split.
        -- intros (o & s' & H). discriminate H.
        -- intros (rc' & o & er & [= -> _ ->] & [H | H]);
             [contradiction | congruence].
  - rewrite (ollama_run_garbled _ _ _ _ _ Hs (Hexn e (or_intror eq_refl))). split.
    + intros (o & s' & H). discriminate H.
    + intros (rc' & o & er & H & _). discriminate H.
  - rewrite (ollama_run_not_started _ _ _ _ _ Hs (Hexn e (or_introl eq_refl))). split.
    + intros (o & s' & H). discriminate H.
    + intros (rc' & o & er & H & _). discriminate H.
Qed.

Lemma ollama_run_returns_iff_witness :
  exists out st', ollama_run ollama_failing "llama3" "prompt" init_state = (Ok out, st').
Proof.
  apply (ollama_run_returns_iff ollama_failing "llama3" "prompt" init_state).
  - intros e [H | H]; discriminate H.
  - exists 1, "", "Error: model not found". split; [reflexivity | right; reflexivity].
Defined.

(* ===================================================================== *)
(** * Further properties of the runner *)
(* ===================================================================== *)

(** X10.  When the model process exits with status 0, its stripped output
    holds a text that decodes to an object with a string [tool_name] and an
    object [parameters], and standard output takes the header, the line of
    the tool name and the line of the parameters, the scenario prints its
    header, the tool name, the parameters and the elapsed time, in this
    order and nothing else, and ends normally. *)
Theorem scenario_success_report
        (w : world) (model sid user out err j name : string)
        (kwargs params : dict) (st : state) :
  let prompt := PROMPT_HEAD ++ TOOL_DOC ++ PROMPT_MID
                ++ DELIM ++ user ++ DELIM ++ PROMPT_TAIL in
  spawn w (spawned st) (ollama_cmd model) prompt = Exited 0 out err ->
  extract_first_json (strip out) = Ok (Some j) ->
  json_loads j = Ok (JObject kwargs) ->
  dict_get "tool_name" kwargs = Some (JString name) ->
  dict_get "parameters" kwargs = Some (JObject params) ->
  can_print w [PStr (LF ++ "--- " ++ sid ++ " ---")] = true ->
  can_print w [PStr "✅ Tool:"; PStr name] = true ->
  can_print w [PStr "Parameters:"; PDict params] = true ->
  exists st',
    run_scenario w model (sid, user) st = (Ok tt, st') /\
    console st'
    = (console st ++
       [ [PStr (LF ++ "--- " ++ sid ++ " ---")%string];
         [PStr "✅ Tool:"; PStr name];
         [PStr "Parameters:"; PDict params];
         [PSeconds (time_time w (S (clock_reads st)) - time_time w (clock_reads st))] ])%list.
Proof.
  intros prompt Hs He Hj Hn Hp Hhdr Htool Hpar.
  cbv [run_scenario bind lift time_now].
  rewrite (print_written w _ st Hhdr).
  rewrite build_prompt_eq. fold prompt.
  erewrite ollama_run_zero; [| exact Hs].
  erewrite parse_tool_call_valid;
    [| exact He | exact (json_loads_nonempty _ _ Hj) | exact Hj
     | exact (ToolCall_init_ok _ _ _ Hn Hp) ].
  cbn [tool_name parameters].
  rewrite (print_written w _ _ Htool).
  rewrite (print_written w _ _ Hpar).
  rewrite print_written by reflexivity.
  eexists. split; [reflexivity|].
  simpl. now rewrite <- !app_assoc.
Qed.

Lemma scenario_success_report_witness :
  exists st',
    run_scenario
      (ollama_answering
         (quoted "{'tool_name':'add_ecu','parameters':{'id':'ECU-1','cpu':'Cortex-M4','controllers':[{'type':'CAN','count':2}]}}
"))
      "llama3"
      ("S1_simple_ecu", "Create an ECU with Cortex-M4 and 2 CAN controllers.")
      init_state = (Ok tt, st') /\
    console st'
    = [ [PStr (LF ++ "--- S1_simple_ecu ---")];
        [PStr "✅ Tool:"; PStr "add_ecu"];
        [PStr "Parameters:";
         PDict [("id", JString "ECU-1"); ("cpu", JString "Cortex-M4");
                ("controllers",
                 JArray [JObject [("type", JString "CAN"); ("count", JInt 2)]])]];
        [PSeconds 1] ].
Proof.
  apply (scenario_success_report
           (ollama_answering
              (quoted "{'tool_name':'add_ecu','parameters':{'id':'ECU-1','cpu':'Cortex-M4','controllers':[{'type':'CAN','count':2}]}}
"))
           "llama3" "S1_simple_ecu"
           "Create an ECU with Cortex-M4 and 2 CAN controllers."
           (quoted "{'tool_name':'add_ecu','parameters':{'id':'ECU-1','cpu':'Cortex-M4','controllers':[{'type':'CAN','count':2}]}}
")
           ""
           (quoted "{'tool_name':'add_ecu','parameters':{'id':'ECU-1','cpu':'Cortex-M4','controllers':[{'type':'CAN','count':2}]}}")
           "add_ecu"
           [("tool_name", JString "add_ecu");
            ("parameters",
             JObject [("id", JString "ECU-1"); ("cpu", JString "Cortex-M4");
                      ("controllers",
                       JArray [JObject [("type", JString "CAN"); ("count", JInt 2)]])])]
           [("id", JString "ECU-1"); ("cpu", JString "Cortex-M4");
            ("controllers",
             JArray [JObject [("type", JString "CAN"); ("count", JInt 2)]])]
           init_state);
    reflexivity.
Defined.

(** X11.  Whenever the model process of a scenario runs to its end with
    streams that decode as text, on a standard output that takes every
    line, the scenario ends normally and its last line is the elapsed time,
    whether a call was parsed or not.  The time is the difference of the
    two clock readings the scenario takes; it invokes the process once. *)
Theorem scenario_always_timed
        (w : world) (model sid user : string) (st : state) :
  let prompt := PROMPT_HEAD ++ TOOL_DOC ++ PROMPT_MID
                ++ DELIM ++ user ++ DELIM ++ PROMPT_TAIL in
  completed (spawn w (spawned st) (ollama_cmd model) prompt) = true ->
  stdout_takes_all w ->
  exists st' lines,
    run_scenario w model (sid, user) st = (Ok tt, st') /\
    console st'
    = (console st
       ++ [ [PStr (LF ++ "--- " ++ sid ++ " ---")%string] ]
       ++ lines
       ++ [ [PSeconds (time_time w (S (clock_reads st))
                       - time_time w (clock_reads st))] ])%list /\
    spawned st' = S (spawned st) /\
    clock_reads st' = S (S (clock_reads st)).
Proof.
  intros prompt Hst Hw.
  destruct (spawn w (spawned st) (ollama_cmd model) prompt)
    as [rc out err|e|e] eqn:Hs;
    [clear Hst | discriminate Hst | discriminate Hst].
  cbv [run_scenario bind lift time_now].
  rewrite print_written by now apply can_print_all.
  rewrite build_prompt_eq. fold prompt.
  assert (Hrun : forall st0,
             spawned st0 = spawned st ->
             exists o l0,
               ollama_run w model prompt st0
               = (Ok o, printed (after_spawn st0) l0)).
  { intros st0 H0. rewrite <- H0 in Hs.
    destruct (Z.eq_dec rc 0) as [->|Hrc].
    - exists (strip out), []. erewrite ollama_run_zero; [| exact Hs].
      now rewrite printed_nil.
    - exists "", [ [PStr "Ollama error:"; PStr err] ].
      erewrite ollama_run_nonzero;
        [| exact Hs | exact Hrc | now apply can_print_all]. reflexivity. }
  match goal with
  | |- context [ollama_run w model prompt ?s] =>
      destruct (Hrun s eq_refl) as (o & l0 & ->)
  end.
  match goal with
  | |- context [parse_tool_call w ?x ?s] =>
      destruct (parse_tool_call_cases w x s)
        as [(call & j & kw & -> & _) | [(-> & _) | (j & e & _ & _ & _ & ->)]]
  end.
  - rewrite !print_written by now apply can_print_all.
    eexists. exists (l0 ++ [ [PStr "✅ Tool:"; PStr (tool_name call)];
                            [PStr "Parameters:"; PDict (parameters call)] ])%list.
    split; [reflexivity|]. simpl. split; [|split; reflexivity].
    rewrite <- !app_assoc. reflexivity.
  - rewrite !print_written by now apply can_print_all.
    eexists. exists (l0 ++ [ [PStr "❌ Failed to parse tool call."] ])%list.
    split; [reflexivity|]. simpl. split; [|split; reflexivity].
    rewrite <- !app_assoc. reflexivity.
  - rewrite failure_report_printed by now apply can_print_all.
    rewrite !print_written by now apply can_print_all.
    eexists. exists (l0 ++ [ [PStr "❌ JSON parse failed:"; PExn e];
                            [PStr "Raw text:"; PStr o];
                            [PStr "❌ Failed to parse tool call."] ])%list.
    split; [reflexivity|]. simpl. split; [|split; reflexivity].
    rewrite <- !app_assoc. reflexivity.
Qed.

Lemma scenario_always_timed_witness :
  exists st' lines,
    run_scenario ollama_flaky "llama3"
                 ("S2_protocols",
                  "The system should support both CAN and Ethernet communication.")
                 (after_spawn init_state) = (Ok tt, st') /\
    console st'
    = ([ [PStr (LF ++ "--- S2_protocols ---")] ] ++ lines ++ [ [PSeconds 1] ])%list /\
    spawned st' = 2%nat /\
    clock_reads st' = 2%nat.
Proof.
  apply (scenario_always_timed
           ollama_flaky "llama3" "S2_protocols"
           "The system should support both CAN and Ethernet communication."
           (after_spawn init_state)).
  - reflexivity.
  - intros line. reflexivity.
Defined.

(** X12.  When the model process of a scenario cannot be started, the
    exception leaves the scenario after its header has been printed (the
    header of a scenario with an ASCII id, as all six have, is written on
    every standard output): no failure line and no elapsed time follow, and
    the loop does not go on to the scenarios that remain. *)
Theorem scenario_aborts_when_not_started
        (w : world) (model sid user : string) (rest : list (string * string))
        (st : state) (e : exn) :
  let prompt := PROMPT_HEAD ++ TOOL_DOC ++ PROMPT_MID
                ++ DELIM ++ user ++ DELIM ++ PROMPT_TAIL in
  is_ascii sid = true ->
  spawn w (spawned st) (ollama_cmd model) prompt = NotStarted e ->
  is_CalledProcessError e = false ->
  let st' := {| console := (console st
                            ++ [ [PStr (LF ++ "--- " ++ sid ++ " ---")%string] ])%list;
                spawned := S (spawned st);
                clock_reads := S (clock_reads st) |} in
  run_scenario w model (sid, user) st = (Raise e, st') /\
  for_each ((sid, user) :: rest) (run_scenario w model) st = (Raise e, st').
Proof.
  intros prompt Hsid Hs He st'.
  assert (Hrun : run_scenario w model (sid, user) st = (Raise e, st')).
  { cbv [run_scenario bind lift time_now].
    rewrite (print_written w _ st (header_can_print w sid Hsid)).
    rewrite build_prompt_eq. fold prompt.
    erewrite ollama_run_not_started; [| exact Hs | exact He].
    reflexivity. }
  split; [exact Hrun|].
  cbn [for_each]. unfold bind at 1. now rewrite Hrun.
Qed.

Lemma scenario_aborts_when_not_started_witness :
  for_each SCENARIOS (run_scenario ollama_absent "llama3") init_state
  = (Raise (FileNotFoundError "ollama"),
     {| console := [ [PStr (LF ++ "--- S1_simple_ecu ---")] ];
        spawned := 1;
        clock_reads := 1 |}).
Proof.
  apply (scenario_aborts_when_not_started
           ollama_absent "llama3" "S1_simple_ecu"
           "Create an ECU with Cortex-M4 and 2 CAN controllers."
           (tl SCENARIOS) init_state (FileNotFoundError "ollama")).
  - reflexivity.
  - reflexivity.
  - reflexivity.
Defined.

(** ** What a run never does *)

Lemma extends_refl (st : state) : extends 0 st st.
Proof.
  split; [exists []; now rewrite app_nil_r | lia].
Qed.

Lemma extends_trans (a b : nat) (st1 st2 st3 : state) :
  extends a st1 st2 -> extends b st2 st3 -> extends (a + b) st1 st3.
Proof.
  intros [(l1 & H1) B1] [(l2 & H2) B2]. split.
  - exists (l1 ++ l2)%list. now rewrite H2, H1, app_assoc.
  - lia.
Qed.

Lemma extends_weaken (a b : nat) (st st' : state) :
  (a <= b)%nat -> extends a st st' -> extends b st st'.
Proof.
  intros Hab [H B]. split; [exact H | lia].
Qed.

Lemma append_only_ret {A : Type} (a : A) : append_only 0 (ret a).
Proof.
  intros st. apply extends_refl.
Qed.

Lemma append_only_lift {A : Type} (r : result A) : append_only 0 (lift r).
Proof.
  intros st. apply extends_refl.
Qed.

Lemma append_only_print (w : world) (line : list printable) :
  append_only 0 (print w line).
Proof.
  intros st. unfold print. destruct (can_print w line).
  - split; simpl; [now exists [line] | lia].
  - apply extends_refl.
Qed.

Lemma append_only_time_now (w : world) : append_only 0 (time_now w).
Proof.
  intros st. split; simpl; [exists []; now rewrite app_nil_r | lia].
Qed.

Lemma append_only_subprocess_run (w : world) (cmd : list string) (input : string) :
  append_only 1 (subprocess_run w cmd input).
Proof.
  intros st. unfold subprocess_run.
  destruct (spawn w (spawned st) cmd input) as [rc out err|e|e];
    [destruct (rc =? 0)| |];
    (split; simpl; [exists []; now rewrite app_nil_r | lia]).
Qed.

Lemma append_only_bind {A B : Type} (a b : nat) (m : M A) (k : A -> M B) :
  append_only a m ->
  (forall x, append_only b (k x)) ->
  append_only (a + b) (bind m k).
Proof.
  intros Hm Hk st. unfold bind. specialize (Hm st).
  destruct (m st) as [[x|e] st1]; simpl in Hm.
  - eapply extends_trans; [exact Hm | apply Hk].
  - simpl. eapply extends_weaken; [|exact Hm]. lia.
Qed.

Lemma append_only_try_catch {A : Type} (a b : nat) (body : M A)
      (catches : exn -> bool) (handler : exn -> M A) :
  append_only a body ->
  (forall e, append_only b (handler e)) ->
  append_only (a + b) (try_catch body catches handler).
Proof.
  intros Hb Hh st. unfold try_catch. specialize (Hb st).
  destruct (body st) as [[x|e] st1]; simpl in Hb.
  - simpl. eapply extends_weaken; [|exact Hb]. lia.
  - destruct (catches e).
    + eapply extends_trans; [exact Hb | apply Hh].
    + simpl. eapply extends_weaken; [|exact Hb]. lia.
Qed.

Lemma append_only_weaken {A : Type} (a b : nat) (m : M A) :
  (a <= b)%nat -> append_only a m -> append_only b m.
Proof.
  intros Hab H st. eapply extends_weaken; [exact Hab | apply H].
Qed.

Lemma append_only_for_each {A : Type} (k : nat) (xs : list A) (body : A -> M unit) :
  (forall x, append_only k (body x)) ->
  append_only (List.length xs * k) (for_each xs body).
Proof.
  intros Hb. induction xs as [|x xs IH]; simpl.
  - apply append_only_ret.
  - apply append_only_bind; [apply Hb | intros _; exact IH].
Qed.

Lemma append_only_parse_tool_call (w : world) (output : string) :
  append_only 0 (parse_tool_call w output).
Proof.
  unfold parse_tool_call.
  apply (append_only_bind 0 0); [apply append_only_lift|].
  intros [j|]; [|apply append_only_ret].
  destruct (negb (str_truthy j)); [apply append_only_ret|].
  apply (append_only_try_catch 0 0).
  - apply (append_only_bind 0 0); [apply append_only_lift | intros data].
    apply (append_only_bind 0 0); [apply append_only_lift | intros call].
    apply append_only_ret.
  - intros e.
    apply (append_only_bind 0 0); [apply append_only_print | intros _].
    apply (append_only_bind 0 0); [apply append_only_print | intros _].
    apply append_only_ret.
Qed.

Lemma append_only_ollama_run (w : world) (model prompt : string) :
  append_only 1 (ollama_run w model prompt).
Proof.
  unfold ollama_run.
  apply (append_only_try_catch 1 0).
  - apply (append_only_bind 1 0); [apply append_only_subprocess_run | intros res].
    apply append_only_ret.
  - intros e.
    apply (append_only_bind 0 0); [apply append_only_print | intros _].
    apply append_only_ret.
Qed.

Lemma append_only_run_scenario (w : world) (model : string) (sc : string * string) :
  append_only 1 (run_scenario w model sc).
Proof.
  destruct sc as [sid user]. unfold run_scenario.
  apply (append_only_bind 0 1); [apply append_only_print | intros _].
  apply (append_only_bind 0 1); [apply append_only_lift | intros prompt].
  apply (append_only_bind 0 1); [apply append_only_time_now | intros start].
  apply (append_only_bind 1 0); [apply append_only_ollama_run | intros out].
  apply (append_only_bind 0 0); [apply append_only_time_now | intros stop].
  apply (append_only_bind 0 0); [apply append_only_parse_tool_call | intros call].
  apply (append_only_bind 0 0); [|intros _; apply append_only_print].
  destruct call as [call|]; [|apply append_only_print].
  apply (append_only_bind 0 0); [apply append_only_print | intros _].
  apply append_only_print.
Qed.

(** X13.  However a run of the tests ends, normally or with an exception
    on its way out, and whatever the model process does, it has invoked the
    process six times at most (one invocation for each scenario, none
    repeated), and what was on the console before is still there, unchanged,
    before what the run printed. *)
Theorem run_tests_never_retries (w : world) (model : string) (st : state) :
  let st' := snd (run_tests w model st) in
  (exists lines, console st' = (console st ++ lines)%list) /\
  (spawned st <= spawned st' <= spawned st + 6)%nat.
Proof.
  apply (append_only_bind 0 6 (print w [PStr (" Testing model: " ++ model)])
                          (fun _ => for_each SCENARIOS (run_scenario w model))).
  - apply append_only_print.
  - intros _.
    apply (append_only_for_each 1 SCENARIOS (run_scenario w model)).
    intros sc. apply append_only_run_scenario.
Qed.

(** ** The prompt of a scenario *)

Lemma app_inv_head_str (a x y : string) : a ++ x = a ++ y -> x = y.
Proof.
  induction a as [|c a IH]; simpl; [exact id|].
  intros [= H]. exact (IH H).
Qed.

Lemma app_inv_tail_str (b x y : string) : x ++ b = y ++ b -> x = y.
Proof.
  revert y. induction x as [|c x IH]; intros [|d y] H; simpl in H.
  - reflexivity.
  - apply (f_equal String.length) in H. simpl in H. rewrite length_app in H. lia.
  - apply (f_equal String.length) in H. simpl in H. rewrite length_app in H. lia.
  - injection H as -> H. now rewrite (IH y H).
Qed.

(** X14.  Prompts built over the same tool documentation are equal only
    for equal instructions: no two instructions are sent to the model as
    the same prompt. *)
Theorem build_prompt_injective (tool_doc user1 user2 : string) :
  build_prompt tool_doc user1 = build_prompt tool_doc user2 ->
  user1 = user2.
Proof.
  rewrite !build_prompt_eq. intros H.
  assert (Hok : forall a b : string, Ok a = Ok b -> a = b)
    by (intros a b E; now injection E).
  apply Hok in H.
  apply (app_inv_head_str PROMPT_HEAD) in H.
  apply (app_inv_head_str tool_doc) in H.
  apply (app_inv_head_str PROMPT_MID) in H.
  apply (app_inv_head_str DELIM) in H.
  exact (app_inv_tail_str (DELIM ++ PROMPT_TAIL) user1 user2 H).
Qed.

Lemma build_prompt_injective_witness :
  "Attach an I2C block to ECU-1." = "Attach an I2C block to ECU-1.".
Proof.
  apply (build_prompt_injective TOOL_DOC). reflexivity.
Defined.
